(** * adaptive-tls: the rollout script [tls/rollout.py]

    A shallow embedding of [run] and [rollout] and the properties of the
    configuration resolver and of the rollout loop.

    The script is glue around opaque libraries (ray/RLlib, gym, the SUMO
    environment).  Every call into them is a function on an abstract [World]
    and is recorded in a trace of events, in program order; the script's
    own logic (branching, dictionaries, counters, local exceptions) is written
    out.  Calls into the environment and the policy are taken to return; a
    library call that can fail on the script's own inputs ([pickle.load],
    [merge_dicts], [get_agent_class]) gives an [option], and its failure is
    the exception [LibraryError]. *)

From Stdlib Require Import ZArith Lia.
From stdpp Require Import base option list gmap strings.

Set Warnings "-register-all,-clear-no-such-hyp".
Set Default Proof Using "Type*".

(** ** Python values of the configuration *)

(** The JSON-like fragment of Python values a configuration holds. *)
Inductive pyval :=
| VNone
| VBool (b : bool)
| VInt (z : Z)
| VStr (s : string)
| VList (l : list pyval)
| VDict (d : list (string * pyval)).

(** Python truthiness, as [not x] and [if x] read it. *)
Definition truthy (v : pyval) : bool :=
  match v with
  | VNone => false
  | VBool b => b
  | VInt z => negb (z =? 0)%Z
  | VStr s => negb (String.eqb s "")
  | VList l => match l with [] => false | _ => true end
  | VDict d => match d with [] => false | _ => true end
  end.

(** A top-level configuration: a [dict] with string keys. *)
Abbreviation Config := (gmap string pyval).

(** Truthiness of a [dict]: non-empty. *)
Definition dict_truthy {V} (d : gmap string V) : bool :=
  negb (bool_decide (d = ∅)).

(** [d.get(k)]: the value, or [None]. *)
Definition dict_get (d : Config) (k : string) : pyval :=
  default VNone (d !! k).

(** [if k in d: del d[k]] *)
Definition del_if_in (k : string) (d : Config) : Config :=
  if bool_decide (is_Some (d !! k)) then delete k d else d.

(** ** Exceptions and results *)

Inductive exn :=
| ValueError (msg : string)
| KeyError (key : string)
| TypeError
| AttributeError
| NameError (var : string)
| ParserError (msg : string)      (* [parser.error]: usage message, exit status 2 *)
| LibraryError (where_ : string). (* raised inside a library call *)

Inductive result (A : Type) :=
| Ok (a : A)
| Raise (e : exn).
Arguments Ok {A} a.
Arguments Raise {A} e.

(** What running a function with a loop gives: a value, an exception, or no
    answer within the given number of iterations. *)
Inductive outcome (A : Type) :=
| Finished (a : A)
| Raised (e : exn)
| OutOfFuel.
Arguments Finished {A} a.
Arguments Raised {A} e.
Arguments OutOfFuel {A}.

#[export] Instance result_ret : MRet result := @Ok.
#[export] Instance result_bind : MBind result := λ A B k r,
  match r with Ok a => k a | Raise e => Raise e end.

(** [d[k]] on a [dict] *)
Definition subscript {V} (d : gmap string V) (k : string) : result V :=
  match d !! k with
  | Some v => Ok v
  | None => Raise (KeyError k)
  end.

(** [d.setdefault(k, v)]: the value now under [k], and the dict. The caller
    has evaluated [v] already. *)
Definition setdefault {V} (d : gmap string V) (k : string) (v : V) : V * gmap string V :=
  match d !! k with
  | Some v' => (v', d)
  | None => (v, <[k := v]> d)
  end.

(** [d[k] = v] on a [dict] kept in insertion order. *)
Fixpoint alist_set {V} (k : string) (v : V) (d : list (string * V)) : list (string * V) :=
  match d with
  | [] => [(k, v)]
  | (k', v') :: d' =>
      if bool_decide (k' = k) then (k', v) :: d' else (k', v') :: alist_set k v d'
  end.

(** [num_steps or alt] *)
Definition or_int (num_steps : option Z) (alt : Z) : Z :=
  match num_steps with
  | Some n => if (n =? 0)%Z then alt else n
  | None => alt
  end.

Definition no_params_msg : string :=
  "Could not find params.pkl in either the checkpoint dir or its parent directory.".
Definition env_required_msg : string :=
  "the following arguments are required: --env".
Definition statistics_file : string := "simulation_statistics.json".

(** ** The opaque types *)

Class Domain := {
  World : Type;      (* everything outside the script: files, ray, env, policy *)
  Obs : Type;        (* an observation that is neither [None] nor a [dict] *)
  Act : Type;        (* an action that is not a [dict] *)
  Reward : Type;     (* a number (Python [int] or [float]) *)
  Stat : Type;       (* the info dict of [env.step] *)
  Hidden : Type;     (* one tensor of a recurrent state *)
  Space : Type;      (* [env.action_space] *)
  EndStats : Type;   (* what [env.collect_statistics_after_simulation()] returns *)
}.

Section Values.
Context {D : Domain}.

(** What [env.reset] and [env.step] give as state. In a multi-agent
    environment it is a [dict] from agent id to that agent's observation
    (possibly [None]); a Python [dict] has no repeated key and is iterated in
    insertion order. *)
Inductive obs_t :=
| ONone
| OVal (o : Obs)
| ODict (d : list (string * obs_t)).

Inductive action_t :=
| AVal (a : Act)
| ADict (d : list (string * action_t)).

Inductive reward_t :=
| RNum (r : Reward)
| RDict (d : list (string * Reward)).

Inductive done_t :=
| DBool (b : bool)
| DDict (d : gmap string bool).

(** [not done] reads the truthiness of whatever [done] holds. *)
Definition done_truthy (d : done_t) : bool :=
  match d with
  | DBool b => b
  | DDict m => dict_truthy m
  end.

(** The local [state_init]: first the dict of every policy's initial state,
    later (single-agent recurrent policy) the state the last call returned. *)
Inductive state_init_t :=
| SIDict (d : gmap string (list Hidden))
| SIList (s : list Hidden).

(** [next_state, reward, done, stat] *)
Abbreviation step_result := (obs_t * reward_t * done_t * Stat)%type.

(** [[state, action, next_state, reward, done]] *)
Abbreviation transition := (obs_t * action_t * obs_t * reward_t * done_t)%type.

(** One element of [statistics]. *)
Record stat_entry := {
  se_statistics : Stat;
  se_episode_reward : gmap string Reward;
  se_timestamp : Z;
}.

Inductive print_t :=
| PrintEndStatistics (e : EndStats)
| PrintEpisodeReward (r : Reward)
| PrintRewardForEach (m : gmap string Reward).

(** The calls that leave the script, in program order. *)
Inductive event :=
| EvRayInit
| EvAgentInit (run : string) (env : pyval) (config : Config)
| EvRestore (checkpoint : string)
| EvGymMake (env_name : pyval)
| EvReset (state : obs_t)
| EvPolicyMapping (agent_id policy_id : string)
| EvComputeAction (o : obs_t) (policy_id : option string) (a : action_t)
| EvStep (a : action_t) (r : step_result)
| EvRender
| EvPrint (p : print_t)
| EvJsonDump (file : string) (statistics : list stat_entry)
| EvPickleDump (file : string) (rollout : list transition).

(** A gym environment object. *)
Record Env := {
  env_reset : World → obs_t * World;
  env_step : action_t → World → step_result * World;
  env_render : World → World;
  env_action_space : Space;
  env_collect_statistics_after_simulation : World → EndStats * World;
}.

Record Policy := {
  get_initial_state : list Hidden;
}.

Record LocalEvaluator := {
  le_env : Env;
  le_multiagent : bool;
  le_policy_map : gmap string Policy;
}.

(** An RLlib agent. [compute_action] returns the action alone when called
    without [state=], and [(action, state_out, info)] when called with it. *)
Record Agent := {
  local_evaluator : option LocalEvaluator;          (* [hasattr(agent, "local_evaluator")] *)
  config_clip_actions : bool;                       (* [agent.config["clip_actions"]] *)
  (* [agent.config["multiagent"]["policy_mapping_fn"]] *)
  config_policy_mapping_fn : option (string → World → string * World);
  compute_action : obs_t → option string → World → action_t * World;
  compute_action_rnn :
    obs_t → state_init_t → option string → World → (action_t * list Hidden) * World;
}.

End Values.

Abbreviation step_result := (obs_t * reward_t * done_t * Stat)%type.
Abbreviation transition := (obs_t * action_t * obs_t * reward_t * done_t)%type.

(** ** The library functions *)

Class Library {D : Domain} := {
  (* numbers *)
  r_int0 : Reward;                       (* the [int] 0 *)
  r_float0 : Reward;                     (* the [float] 0.0 *)
  r_add : Reward → Reward → Reward;      (* [+] *)
  (* os.path, open, pickle *)
  dirname : string → string;
  path_join : string → string → string;
  path_exists : World → string → bool;
  pickle_load : World → string → option Config;   (* [open] and [pickle.load] *)
  (* ray *)
  merge_dicts : Config → Config → option Config;
  ray_init : World → World;
  get_agent_class : string → option (pyval → Config → World → Agent * World);
  agent_restore : Agent → string → World → World;
  clip_action : action_t → Space → action_t;
  (* gym *)
  gym_make : pyval → World → Env * World;
  (* [int(s)] on a string *)
  int_of_str : string → option Z;
}.

Section Program.
Context {D : Domain} {L : Library}.

(** ** The script's monad: the world, the trace, and exceptions *)

Record Sys := {
  world : World;
  trace : list event;
}.

Definition M (A : Type) : Type := Sys → result (A * Sys).

Definition ret {A} (a : A) : M A := λ s, Ok (a, s).

Definition bind {A B} (m : M A) (k : A → M B) : M B :=
  λ s, match m s with
       | Ok (a, s') => k a s'
       | Raise e => Raise e
       end.

Definition raise {A} (e : exn) : M A := λ _, Raise e.

(** A pure computation that may raise. *)
Definition lift {A} (r : result A) : M A :=
  λ s, match r with Ok a => Ok (a, s) | Raise e => Raise e end.

(** The answer of a library function that may fail. *)
Definition lift_lib {A} (name : string) (o : option A) : M A :=
  lift (match o with Some a => Ok a | None => Raise (LibraryError name) end).

(** A library call: it changes the world and leaves one event. *)
Definition call {A} (f : World → A * World) (ev : A → event) : M A :=
  λ s, let '(a, w) := f (world s) in
       Ok (a, {| world := w; trace := trace s ++ [ev a] |}).

Definition call_ (f : World → World) (ev : event) : M unit :=
  call (λ w, (tt, f w)) (λ _, ev).

(** Reading the world leaves no event. *)
Definition ask {A} (f : World → A) : M A := λ s, Ok (f (world s), s).

#[export] Instance M_ret : MRet M := @ret.
#[export] Instance M_bind : MBind M := λ A B k m, bind m k.

(** ** [run]: the configuration resolver (lines 88-110) *)

Record Args := {
  args_checkpoint : string;
  args_run : string;
  args_env : pyval;                 (* a [str], or [None] *)
  args_no_render : bool;
  args_steps : pyval;               (* the [int] 10000, or the [str] given *)
  args_out : option string;
  args_config : Config;             (* [json.loads] of [--config], [{}] by default *)
}.

(** Lines 88-106: the configuration handed to the agent class. *)
Definition run_config (args : Args) : M Config :=
  let config : Config := ∅ in
  let config_dir := dirname (args_checkpoint args) in
  let config_path := path_join config_dir "params.pkl" in
  e1 ← ask (λ w, path_exists w config_path);
  let config_path :=
    if negb e1 then path_join config_dir "../params.pkl" else config_path in
  e2 ← ask (λ w, path_exists w config_path);
  config ← (if negb e2 then
              if negb (dict_truthy (args_config args)) then
                raise (ValueError no_params_msg)
              else ret config
            else
              r ← ask (λ w, pickle_load w config_path); lift_lib "pickle.load" r);
  let config := del_if_in "num_workers" config in
  let config := del_if_in "num_gpus_per_worker" config in
  lift_lib "merge_dicts" (merge_dicts config (args_config args)).

(** Lines 107-110: the environment name; [args.env] after them. *)
Definition run_env (args : Args) (config : Config) : M pyval :=
  if negb (truthy (args_env args)) then
    (if negb (truthy (dict_get config "env")) then
       raise (ParserError env_required_msg)
     else ret tt);;
    ret (dict_get config "env")
  else ret (args_env args).

(** [int(args.steps)] *)
Definition py_int (v : pyval) : result Z :=
  match v with
  | VInt z => Ok z
  | VBool b => Ok (if b then 1 else 0)%Z
  | VStr s => match int_of_str s with
              | Some z => Ok z
              | None => Raise (ValueError "invalid literal for int()")
              end
  | _ => Raise TypeError
  end.


(** Output (stdout, a file written): it is kept in the trace. *)
Definition emit (ev : event) : M unit :=
  λ s, Ok (tt, {| world := world s; trace := trace s ++ [ev] |}).

(** ** [rollout] *)

(** What lines 122-135 bind, fixed during the loop. *)
Record Setup := {
  env : Env;
  multiagent : bool;
  policy_agent_mapping : option (string → World → string * World);
  use_lstm : gmap string bool;
}.

(** The local variables the loop updates. *)
Record Locals := {
  l_steps : Z;
  l_rollout : option (list transition);    (* bound only when [out is not None] *)
  l_state : obs_t;
  l_done : done_t;
  l_reward_total : Reward;
  l_reward_for_each : gmap string Reward;  (* a [defaultdict(int)] *)
  l_statistics : list stat_entry;
  l_time : Z;
  l_mapping_cache : gmap string string;
  l_state_init : option state_init_t;      (* unbound without a local evaluator *)
}.

(** Lines 122-135. *)
Definition rollout_setup (agent : Agent) (env_name : pyval)
  : M (Setup * option state_init_t) :=
  match local_evaluator agent with
  | Some ev =>
      let env := le_env ev in
      let multiagent := le_multiagent ev in
      let policy_agent_mapping :=
        if multiagent then config_policy_mapping_fn agent else None in
      let policy_map := le_policy_map ev in
      let state_init : gmap string (list Hidden) :=
        get_initial_state <$> policy_map in
      let use_lstm := (λ st, bool_decide (0 < length st)) <$> state_init in
      mret ({| env := env; multiagent := multiagent;
               policy_agent_mapping := policy_agent_mapping;
               use_lstm := use_lstm |}, Some (SIDict state_init))
  | None =>
      env ← call (gym_make env_name) (λ _, EvGymMake env_name);
      mret ({| env := env; multiagent := false;
               policy_agent_mapping := None;
               use_lstm := {[ "default" := false ]} |}, None)
  end.

(** Lines 137-145. *)
Definition rollout_init (cx : Setup) (out : option string)
    (state_init : option state_init_t) : M Locals :=
  let steps := 0%Z in
  let rollout := match out with Some _ => Some [] | None => None end in
  state ← call (env_reset (env cx)) EvReset;
  mret {| l_steps := steps; l_rollout := rollout; l_state := state;
          l_done := DBool false; l_reward_total := r_float0;
          l_reward_for_each := ∅; l_statistics := []; l_time := (-5)%Z;
          l_mapping_cache := ∅; l_state_init := state_init |}.

(** Line 146: [not done and steps < (num_steps or steps + 1)] *)
Definition loop_cond (num_steps : option Z) (l : Locals) : bool :=
  negb (done_truthy (l_done l))
  && bool_decide (l_steps l < or_int num_steps (l_steps l + 1))%Z.

(** [state_init[policy_id]] *)
Definition state_init_get (state_init : option state_init_t) (policy_id : string)
  : result (list Hidden) :=
  match state_init with
  | None => Raise (NameError "state_init")
  | Some (SIList _) => Raise TypeError
  | Some (SIDict d) => subscript d policy_id
  end.

(** [state_init[policy_id] = p_state_init] *)
Definition state_init_set (state_init : option state_init_t) (policy_id : string)
    (p_state_init : list Hidden) : result (option state_init_t) :=
  match state_init with
  | None => Raise (NameError "state_init")
  | Some (SIList _) => Raise TypeError
  | Some (SIDict d) => Ok (Some (SIDict (<[policy_id := p_state_init]> d)))
  end.

(** Lines 152-164: what is done for an agent whose state is not [None]. The
    argument of [setdefault] is evaluated before the call. *)
Definition visit_agent (agent : Agent) (cx : Setup) (agent_id : string) (a_state : obs_t)
    (acc : gmap string string * option state_init_t * list (string * action_t))
  : M (gmap string string * option state_init_t * list (string * action_t)) :=
  let '(mapping_cache, state_init, action_dict) := acc in
  fn ← lift (match policy_agent_mapping cx with
             | Some f => Ok f
             | None => Raise TypeError
             end);
  p ← call (fn agent_id) (EvPolicyMapping agent_id);
  let '(policy_id, mapping_cache) := setdefault mapping_cache agent_id p in
  p_use_lstm ← lift (subscript (use_lstm cx) policy_id);
  '(a_action, state_init) ←
    (if p_use_lstm : bool then
       st ← lift (state_init_get state_init policy_id);
       '(a_action, p_state_init) ←
         call (compute_action_rnn agent a_state (SIList st) (Some policy_id))
              (λ r, EvComputeAction a_state (Some policy_id) r.1);
       state_init ← lift (state_init_set state_init policy_id p_state_init);
       mret (a_action, state_init)
     else
       a_action ← call (compute_action agent a_state (Some policy_id))
                       (EvComputeAction a_state (Some policy_id));
       mret (a_action, state_init));
  mret (mapping_cache, state_init, alist_set agent_id a_action action_dict).

(** Lines 150-164: the body of [for agent_id in state.keys()]. *)
Definition agent_action (agent : Agent) (cx : Setup) (agent_id : string) (a_state : obs_t)
    (acc : gmap string string * option state_init_t * list (string * action_t))
  : M (gmap string string * option state_init_t * list (string * action_t)) :=
  match a_state with
  | ONone => mret acc
  | _ => visit_agent agent cx agent_id a_state acc
  end.

(** Lines 149-164. [state] is a dict without repeated keys, so going through
    its items is going through [state.keys()] and reading [state[agent_id]]. *)
Fixpoint for_agents (agent : Agent) (cx : Setup) (items : list (string * obs_t))
    (acc : gmap string string * option state_init_t * list (string * action_t))
  : M (gmap string string * option state_init_t * list (string * action_t)) :=
  match items with
  | [] => mret acc
  | (agent_id, a_state) :: items =>
      acc ← agent_action agent cx agent_id a_state acc;
      for_agents agent cx items acc
  end.

(** Lines 147-171: the action, and [mapping_cache] and [state_init] after. *)
Definition choose_action (agent : Agent) (cx : Setup) (l : Locals)
  : M (action_t * gmap string string * option state_init_t) :=
  if multiagent cx then
    match l_state l with
    | ODict items =>
        '(mapping_cache, state_init, action_dict) ←
          for_agents agent cx items (l_mapping_cache l, l_state_init l, []);
        mret (ADict action_dict, mapping_cache, state_init)
    | _ => raise AttributeError
    end
  else
    d ← lift (subscript (use_lstm cx) "default");
    if d : bool then
      st ← lift (match l_state_init l with
                 | Some st => Ok st
                 | None => Raise (NameError "state_init")
                 end);
      '(action, state_init) ←
        call (compute_action_rnn agent (l_state l) st None)
             (λ r, EvComputeAction (l_state l) None r.1);
      mret (action, l_mapping_cache l, Some (SIList state_init))
    else
      action ← call (compute_action agent (l_state l) None)
                    (EvComputeAction (l_state l) None);
      mret (action, l_mapping_cache l, l_state_init l).

(** [sum(values)] *)
Definition py_sum (values : list Reward) : Reward := foldl r_add r_int0 values.

(** [reward_for_each[k] += v] on a [defaultdict(int)] *)
Definition defaultdict_add (m : gmap string Reward) (k : string) (v : Reward)
  : gmap string Reward :=
  <[k := r_add (default r_int0 (m !! k)) v]> m.

(** Lines 182-183. *)
Definition add_rewards (m : gmap string Reward) (items : list (string * Reward))
  : gmap string Reward :=
  foldl (λ m kv, defaultdict_add m kv.1 kv.2) m items.

(** Lines 179-194: [done], [reward_total], [reward_for_each], [time] and
    [statistics] after them. [stat.copy()] and [reward_for_each.copy()] are
    the values at that moment. *)
Definition account (cx : Setup) (l : Locals) (reward : reward_t) (done : done_t) (stat : Stat)
  : result (done_t * Reward * gmap string Reward * Z * list stat_entry) :=
  if multiagent cx then
    all ← match done with
          | DDict m => subscript m "__all__"
          | DBool _ => Raise TypeError
          end;
    let done := DBool all in
    items ← match reward with
            | RDict items => Ok items
            | RNum _ => Raise AttributeError
            end;
    let reward_total := r_add (l_reward_total l) (py_sum (items.*2)) in
    let reward_for_each := add_rewards (l_reward_for_each l) items in
    let time := (l_time l + 5)%Z in
    let statistics :=
      l_statistics l ++ [ {| se_statistics := stat;
                             se_episode_reward := reward_for_each;
                             se_timestamp := time |} ] in
    Ok (done, reward_total, reward_for_each, time, statistics)
  else
    r ← match reward with
        | RNum r => Ok r
        | RDict _ => Raise TypeError
        end;
    Ok (done, r_add (l_reward_total l) r, l_reward_for_each l, l_time l, l_statistics l).

(** Lines 147-200: one iteration. *)
Definition loop_body (agent : Agent) (cx : Setup) (out : option string) (no_render : bool)
    (l : Locals) : M Locals :=
  let state := l_state l in
  '(action, mapping_cache, state_init) ← choose_action agent cx l;
  '(next_state, reward, done, stat) ←
    (if config_clip_actions agent then
       let clipped_action := clip_action action (env_action_space (env cx)) in
       call (env_step (env cx) clipped_action) (EvStep clipped_action)
     else
       call (env_step (env cx) action) (EvStep action));
  '(done, reward_total, reward_for_each, time, statistics) ←
    lift (account cx l reward done stat);
  (if negb no_render then call_ (env_render (env cx)) EvRender else mret tt);;
  rollout ← lift (match out with
                  | Some _ =>
                      match l_rollout l with
                      | Some rollout =>
                          Ok (Some (rollout ++ [(state, action, next_state, reward, done)]))
                      | None => Raise (NameError "rollout")
                      end
                  | None => Ok (l_rollout l)
                  end);
  let steps := (l_steps l + 1)%Z in
  let state := next_state in
  mret {| l_steps := steps; l_rollout := rollout; l_state := state;
          l_done := done; l_reward_total := reward_total;
          l_reward_for_each := reward_for_each; l_statistics := statistics;
          l_time := time; l_mapping_cache := mapping_cache;
          l_state_init := state_init |}.

(** Line 146: the [while] loop, run for at most [fuel] iterations. *)
Fixpoint while_loop (fuel : nat) (agent : Agent) (cx : Setup) (num_steps : option Z)
    (out : option string) (no_render : bool) (l : Locals) (s : Sys)
  : outcome (Locals * Sys) :=
  if loop_cond num_steps l then
    match fuel with
    | O => OutOfFuel
    | S fuel =>
        match loop_body agent cx out no_render l s with
        | Ok (l', s') => while_loop fuel agent cx num_steps out no_render l' s'
        | Raise e => Raised e
        end
    end
  else Finished (l, s).

(** Lines 202-209. *)
Definition rollout_end (cx : Setup) (out : option string) (l : Locals) : M unit :=
  call (env_collect_statistics_after_simulation (env cx))
       (λ e, EvPrint (PrintEndStatistics e));;
  emit (EvPrint (PrintEpisodeReward (l_reward_total l)));;
  emit (EvPrint (PrintRewardForEach (l_reward_for_each l)));;
  emit (EvJsonDump statistics_file (l_statistics l));;
  match out with
  | Some file =>
      rollout ← lift (match l_rollout l with
                      | Some rollout => Ok rollout
                      | None => Raise (NameError "rollout")
                      end);
      emit (EvPickleDump file rollout)
  | None => mret tt
  end.

(** [rollout(agent, env_name, num_steps, out, no_render)]: the local
    variables and the system when it returns. *)
Definition rollout (fuel : nat) (agent : Agent) (env_name : pyval) (num_steps : option Z)
    (out : option string) (no_render : bool) (s : Sys) : outcome (Locals * Sys) :=
  match ('(cx, state_init) ← rollout_setup agent env_name;
         l ← rollout_init cx out state_init;
         mret (cx, l)) s with
  | Raise e => Raised e
  | Ok ((cx, l), s) =>
      match while_loop fuel agent cx num_steps out no_render l s with
      | Finished (l, s) =>
          match rollout_end cx out l s with
          | Ok (_, s) => Finished (l, s)
          | Raise e => Raised e
          end
      | Raised e => Raised e
      | OutOfFuel => OutOfFuel
      end
  end.

(** Lines 88-117 of [run]: everything before the call of [rollout]. *)
Definition run_prepare (args : Args) : M (Agent * pyval * Z) :=
  config ← run_config args;
  env ← run_env args config;
  call_ ray_init EvRayInit;;
  cls ← lift_lib "get_agent_class" (get_agent_class (args_run args));
  agent ← call (cls env config) (λ _, EvAgentInit (args_run args) env config);
  call_ (agent_restore agent (args_checkpoint args)) (EvRestore (args_checkpoint args));;
  num_steps ← lift (py_int (args_steps args));
  mret (agent, env, num_steps).

(** [run(args, parser)]; [parser.error] is the exception [ParserError]. *)
Definition run (fuel : nat) (args : Args) (s : Sys) : outcome (Locals * Sys) :=
  match run_prepare args s with
  | Raise e => Raised e
  | Ok ((agent, env, num_steps), s) =>
      rollout fuel agent env (Some num_steps) (args_out args) (args_no_render args) s
  end.

End Program.

(** ** A small instance: two traffic lights, integer actions and rewards

    Used to run the model on concrete inputs. The environment ends its
    episode at the third step; the policy always answers 7, outside the
    action space [0, 3]. *)

Module Demo.

Record demo_world := {
  dw_files : gmap string Config;   (* the pickled files, by path *)
  dw_clock : nat;                  (* steps since the last reset *)
}.

#[export] Instance demo_domain : Domain := {|
  World := demo_world;
  Obs := nat;
  Act := Z;
  Reward := Z;
  Stat := nat;
  Hidden := nat;
  Space := Z * Z;
  EndStats := nat;
|}.

(** The part of a path before its last slash. *)
Fixpoint before_last_slash (p : string) : option string :=
  match p with
  | EmptyString => None
  | String c rest =>
      match before_last_slash rest with
      | Some d => Some (String c d)
      | None => if Ascii.eqb c (Ascii.ascii_of_nat 47) then Some EmptyString else None
      end
  end.

Definition demo_dirname (p : string) : string := default "" (before_last_slash p).

Definition demo_path_join (d f : string) : string :=
  if String.eqb d "" then f else d +:+ "/" +:+ f.

(** On dicts without nested dicts, the values of the second win. *)
Definition demo_merge_dicts (d1 d2 : Config) : option Config := Some (d2 ∪ d1).

Fixpoint demo_clip_action (a : action_t) (space : Z * Z) : action_t :=
  match a with
  | AVal z => AVal (Z.max space.1 (Z.min space.2 z))
  | ADict d => ADict (map (λ kv, (kv.1, demo_clip_action kv.2 space)) d)
  end.

Definition tick (w : demo_world) : demo_world :=
  {| dw_files := dw_files w; dw_clock := S (dw_clock w) |}.

Definition rewind (w : demo_world) : demo_world :=
  {| dw_files := dw_files w; dw_clock := 0 |}.

Definition multi_env : Env := {|
  env_reset := λ w, (ODict [("tl0", OVal 0); ("tl1", OVal 0)], rewind w);
  env_step := λ _ w,
    let c := S (dw_clock w) in
    ((ODict [("tl0", OVal c); ("tl1", OVal c)],
      RDict [("tl0", 1%Z); ("tl1", Z.of_nat c)],
      DDict {[ "tl0" := false; "tl1" := false; "__all__" := bool_decide (3 ≤ c) ]},
      c), tick w);
  env_render := λ w, w;
  env_action_space := (0, 3)%Z;
  env_collect_statistics_after_simulation := λ w, (dw_clock w, w);
|}.

Definition single_env : Env := {|
  env_reset := λ w, (OVal 0, rewind w);
  env_step := λ _ w,
    let c := S (dw_clock w) in
    ((OVal c, RNum (Z.of_nat c), DBool (bool_decide (3 ≤ c)), c), tick w);
  env_render := λ w, w;
  env_action_space := (0, 3)%Z;
  env_collect_statistics_after_simulation := λ w, (dw_clock w, w);
|}.

(** An environment whose episode never ends. *)
Definition endless_env : Env := {|
  env_reset := λ w, (OVal 0, rewind w);
  env_step := λ _ w, ((OVal (S (dw_clock w)), RNum 1%Z, DBool false, 0), tick w);
  env_render := λ w, w;
  env_action_space := (0, 3)%Z;
  env_collect_statistics_after_simulation := λ w, (dw_clock w, w);
|}.

Definition demo_agent (e : Env) (multi clip : bool) : Agent := {|
  local_evaluator :=
    Some {| le_env := e; le_multiagent := multi;
            le_policy_map := {[ "default" := {| get_initial_state := [] |} ]} |};
  config_clip_actions := clip;
  config_policy_mapping_fn := Some (λ _ w, ("default", w));
  compute_action := λ _ _ w, (AVal 7%Z, w);
  compute_action_rnn := λ _ _ _ w, ((AVal 7%Z, []), w);
|}.

(** The agent class "PPO": multi-agent exactly when the configuration has a
    true ["multi"], clipping when it has a true ["clip_actions"]. *)
Definition demo_get_agent_class (run : string)
  : option (pyval → Config → demo_world → Agent * demo_world) :=
  if String.eqb run "PPO" then
    Some (λ _ config w,
      let multi := truthy (dict_get config "multi") in
      (demo_agent (if multi then multi_env else single_env) multi
                  (truthy (dict_get config "clip_actions")), w))
  else None.

Definition demo_int_of_str (s : string) : option Z :=
  if String.eqb s "2" then Some 2%Z
  else if String.eqb s "0" then Some 0%Z
  else None.

#[export] Instance demo_library : Library := {|
  r_int0 := 0%Z;
  r_float0 := 0%Z;
  r_add := Z.add;
  dirname := demo_dirname;
  path_join := demo_path_join;
  path_exists := λ w p, bool_decide (is_Some (dw_files w !! p));
  pickle_load := λ w p, dw_files w !! p;
  merge_dicts := demo_merge_dicts;
  ray_init := λ w, w;
  get_agent_class := demo_get_agent_class;
  agent_restore := λ _ _ w, w;
  clip_action := demo_clip_action;
  gym_make := λ _ w, (single_env, w);
  int_of_str := demo_int_of_str;
|}.

(** What [rollout] binds before its loop for [demo_agent e multi clip], and
    the local variables at the loop's entry. *)
Definition demo_cx (e : Env) (multi : bool) : Setup := {|
  env := e;
  multiagent := multi;
  policy_agent_mapping := if multi then Some (λ _ w, ("default", w)) else None;
  use_lstm := {[ "default" := false ]};
|}.

Definition demo_locals (state : obs_t) (rollout : option (list transition)) : Locals := {|
  l_steps := 0; l_rollout := rollout; l_state := state; l_done := DBool false;
  l_reward_total := 0%Z; l_reward_for_each := ∅; l_statistics := []; l_time := (-5)%Z;
  l_mapping_cache := ∅; l_state_init := Some (SIDict {[ "default" := [] ]});
|}.

Definition two_lights : obs_t := ODict [("tl0", OVal 0); ("tl1", OVal 0)].

Definition sys0 (files : gmap string Config) : Sys :=
  {| world := {| dw_files := files; dw_clock := 0 |}; trace := [] |}.

(** Both [params.pkl] exist. *)
Definition both_files : gmap string Config :=
  {[ "ckpt/run/params.pkl" :=
       {[ "multi" := VBool true; "num_workers" := VInt 4; "env" := VStr "SUMOEnv-v0" ]};
     "ckpt/run/../params.pkl" :=
       {[ "gamma" := VInt 99; "num_gpus_per_worker" := VInt 1 ]} ]}.

(** Only the parent directory has one. *)
Definition parent_file : gmap string Config :=
  {[ "ckpt/run/../params.pkl" :=
       {[ "gamma" := VInt 99; "num_gpus_per_worker" := VInt 1; "env" := VStr "SUMOEnv-v0" ]} ]}.

(** The checkpoint directory has one, without an environment name. *)
Definition own_file_without_env : gmap string Config :=
  {[ "ckpt/run/params.pkl" := {[ "gamma" := VInt 99 ]} ]}.

Definition demo_args (env : pyval) (steps : pyval) (out : option string) (config : Config)
  : Args := {|
  args_checkpoint := "ckpt/run/checkpoint-1";
  args_run := "PPO";
  args_env := env;
  args_no_render := false;
  args_steps := steps;
  args_out := out;
  args_config := config;
|}.

End Demo.

(** ** Reading a trace *)

Section Observers.
Context {D : Domain} {L : Library}.

(** The calls of [env.step]: the action sent and what came back. *)
Definition steps_of (evs : list event) : list (action_t * step_result) :=
  omap (λ e, match e with EvStep a r => Some (a, r) | _ => None end) evs.

(** The calls of the policy-mapping function with a given agent id. *)
Definition mapping_calls (agent_id : string) (evs : list event) : list string :=
  omap (λ e, match e with
             | EvPolicyMapping a p => if bool_decide (a = agent_id) then Some p else None
             | _ => None
             end) evs.

(** What the calls of [env.reset] gave. *)
Definition resets_of (evs : list event) : list obs_t :=
  omap (λ e, match e with EvReset st => Some st | _ => None end) evs.

(** The statistics written as JSON, one element per [json.dump]. *)
Definition json_dumps (evs : list event) : list (string * list stat_entry) :=
  omap (λ e, match e with EvJsonDump f st => Some (f, st) | _ => None end) evs.

(** The trajectories pickled, one element per [pickle.dump]. *)
Definition pickle_dumps (evs : list event) : list (string * list transition) :=
  omap (λ e, match e with EvPickleDump f r => Some (f, r) | _ => None end) evs.

(** The configurations agents were constructed with. *)
Definition agent_inits (evs : list event) : list (string * pyval * Config) :=
  omap (λ e, match e with EvAgentInit r e c => Some (r, e, c) | _ => None end) evs.

(** The parts of one call of [env.step]. *)
Definition st_action (r : action_t * step_result) : action_t := r.1.
Definition st_next_state (r : action_t * step_result) : obs_t := r.2.1.1.1.
Definition st_reward (r : action_t * step_result) : reward_t := r.2.1.1.2.
Definition st_done (r : action_t * step_result) : done_t := r.2.1.2.
Definition st_stat (r : action_t * step_result) : Stat := r.2.2.

(** The events of choosing an action. *)
Definition choice_event (e : event) : bool :=
  match e with
  | EvPolicyMapping _ _ | EvComputeAction _ _ _ => true
  | _ => false
  end.

(** The events of the loop. *)
Definition loop_event (e : event) : bool :=
  match e with
  | EvPolicyMapping _ _ | EvComputeAction _ _ _ | EvStep _ _ | EvRender => true
  | _ => false
  end.

(** The action [env.step] receives when the policy chose [action]. *)
Definition sent_action (agent : Agent) (cx : Setup) (action : action_t) : action_t :=
  if config_clip_actions agent
  then clip_action action (env_action_space (env cx))
  else action.

(** The termination flag a [done] of [env.step] stands for: in a multi-agent
    rollout the value under ["__all__"], otherwise [done] itself. *)
Definition done_flag (multi : bool) (done : done_t) : option done_t :=
  if multi then
    match done with
    | DDict m => DBool <$> m !! "__all__"
    | DBool _ => None
    end
  else Some done.

(** The rewards of one agent in a reward dict, and over a run of steps. *)
Definition rewards_of (k : string) (items : list (string * Reward)) : list Reward :=
  omap (λ kv, if bool_decide (kv.1 = k) then Some kv.2 else None) items.

Definition step_rewards (k : string) (r : action_t * step_result) : list Reward :=
  match st_reward r with
  | RDict items => rewards_of k items
  | RNum _ => []
  end.

(** The cumulative reward of agent [k] over the steps [rs]: its rewards
    added up in order from the [int] 0; nothing when it never got one. *)
Definition sum_from_int0 (vs : list Reward) : option Reward :=
  match vs with
  | [] => None
  | _ => Some (foldl r_add r_int0 vs)
  end.

Definition cumulative_reward (k : string) (rs : list (action_t * step_result))
  : option Reward :=
  sum_from_int0 (rs ≫= step_rewards k).

(** The state the [i]-th step starts from: what [env.reset] gave, then the
    [next_state] of the step before. *)
Definition state_before (st0 : obs_t) (rs : list (action_t * step_result)) (i : nat)
  : option obs_t :=
  match i with
  | O => Some st0
  | S j => st_next_state <$> rs !! j
  end.

(** The loop's [done] after [i] steps: [False] at first, then the flag of the
    last step. *)
Definition flag_after (multi : bool) (rs : list (action_t * step_result)) (i : nat)
  : option done_t :=
  match i with
  | O => Some (DBool false)
  | S j => rs !! j ≫= λ r, done_flag multi (st_done r)
  end.

(** The events before the loop's [env.reset], and those after the loop:
    three prints, the statistics as JSON, and the trajectory when [out] is
    given. *)
Definition setup_events (agent : Agent) (env_name : pyval) : list event :=
  match local_evaluator agent with
  | Some _ => []
  | None => [EvGymMake env_name]
  end.

Definition end_events (out : option string) (l : Locals) (e : EndStats) : list event :=
  [ EvPrint (PrintEndStatistics e);
    EvPrint (PrintEpisodeReward (l_reward_total l));
    EvPrint (PrintRewardForEach (l_reward_for_each l));
    EvJsonDump statistics_file (l_statistics l) ]
  ++ match out, l_rollout l with
     | Some file, Some ts => [EvPickleDump file ts]
     | _, _ => []
     end.

(** The two places [run] looks for [params.pkl]. *)
Definition own_params (args : Args) : string :=
  path_join (dirname (args_checkpoint args)) "params.pkl".
Definition parent_params (args : Args) : string :=
  path_join (dirname (args_checkpoint args)) "../params.pkl".

(** A configuration with the worker-count keys removed. *)
Definition without_workers (c : Config) : Config :=
  delete "num_gpus_per_worker" (delete "num_workers" c).

(** The exceptions the statements of [rollout] raise themselves. *)
Definition script_exn (e : exn) : Prop :=
  match e with
  | KeyError _ | TypeError | AttributeError | NameError _ => True
  | _ => False
  end.

(** Every entry of the mapping cache is the value of [f] at its agent id. *)
Definition cache_consistent (f : string → string) (mc : gmap string string) : Prop :=
  ∀ agent_id policy_id, mc !! agent_id = Some policy_id → policy_id = f agent_id.

(** The shapes the loop expects of the environment: in a multi-agent rollout
    dicts for states, rewards and done, the last with the key ["__all__"];
    in a single-agent rollout a number for the reward. *)
Definition env_shaped (cx : Setup) : Prop :=
  if multiagent cx then
    (∀ w, ∃ d, (env_reset (env cx) w).1 = ODict d) ∧
    (∀ a w, ∃ d items dm b stat w',
       env_step (env cx) a w = ((ODict d, RDict items, DDict dm, stat), w') ∧
       dm !! "__all__" = Some b)
  else
    ∀ a w, ∃ next_state r done stat w',
      env_step (env cx) a w = ((next_state, RNum r, done, stat), w').

(** Every policy the loop asks for is in the policy map. *)
Definition policies_known (cx : Setup) : Prop :=
  if multiagent cx then
    ∃ fn, policy_agent_mapping cx = Some fn ∧
          ∀ agent_id w, is_Some (use_lstm cx !! (fn agent_id w).1)
  else is_Some (use_lstm cx !! "default").

(** What an iteration needs of the local variables. *)
Definition locals_ready (cx : Setup) (out : option string) (l : Locals) : Prop :=
  (is_Some out → is_Some (l_rollout l)) ∧
  if multiagent cx then
    (∃ d, l_state l = ODict d) ∧
    (∀ agent_id p, l_mapping_cache l !! agent_id = Some p → is_Some (use_lstm cx !! p)) ∧
    (∃ d, l_state_init l = Some (SIDict d) ∧
          ∀ p, is_Some (use_lstm cx !! p) → is_Some (d !! p))
  else
    is_Some (l_state_init l) ∨ use_lstm cx !! "default" = Some false.

(** [agent.local_evaluator.multiagent], [False] without a local evaluator. *)
Definition is_multiagent (agent : Agent) : bool :=
  match local_evaluator agent with
  | Some ev => le_multiagent ev
  | None => false
  end.

(** The loop invariant.

    [rs] are the calls of [env.step] so far and [st0] is what [env.reset]
    gave. *)

Record loop_inv (agent : Agent) (cx : Setup) (num_steps : option Z)
    (out : option string) (st0 : obs_t) (l : Locals)
    (rs : list (action_t * step_result)) : Prop := {
  inv_steps : l_steps l = Z.of_nat (length rs);
  inv_bound : ∀ i, i < length rs →
    (Z.of_nat i < or_int num_steps (Z.of_nat i + 1))%Z;
  inv_state : state_before st0 rs (length rs) = Some (l_state l);
  inv_done : flag_after (multiagent cx) rs (length rs) = Some (l_done l);
  inv_running : ∀ i, i < length rs →
    ∃ flag, flag_after (multiagent cx) rs i = Some flag ∧ done_truthy flag = false;
  inv_stats :
    if multiagent cx then
      length (l_statistics l) = length rs ∧
      l_time l = (5 * Z.of_nat (length rs) - 5)%Z ∧
      (∀ k, l_reward_for_each l !! k = cumulative_reward k rs) ∧
      ∀ i e, l_statistics l !! i = Some e →
        ∃ r, rs !! i = Some r ∧
          se_statistics e = st_stat r ∧
          se_timestamp e = (5 * Z.of_nat i)%Z ∧
          ∀ k, se_episode_reward e !! k = cumulative_reward k (take (S i) rs)
    else
      l_statistics l = [] ∧ l_reward_for_each l = ∅ ∧ l_time l = (-5)%Z;
  inv_rollout :
    match out with
    | Some _ =>
        ∃ ts, l_rollout l = Some ts ∧ length ts = length rs ∧
          ∀ i t, ts !! i = Some t →
            ∃ r action st flag,
              rs !! i = Some r ∧
              st_action r = sent_action agent cx action ∧
              state_before st0 rs i = Some st ∧
              flag_after (multiagent cx) rs (S i) = Some flag ∧
              t = (st, action, st_next_state r, st_reward r, flag)
    | None => l_rollout l = None
    end;
}.

End Observers.

(** ** Reading the calls of a trace *)

Section Calls.
Context {D : Domain} {L : Library}.

(** The calls of [env.step] and of [env.render] in order: [false] for a
    step, [true] for a render. *)
Definition steps_and_renders (evs : list event) : list bool :=
  omap (λ e, match e with
             | EvStep _ _ => Some false
             | EvRender => Some true
             | _ => None
             end) evs.

(** The agent ids the policy-mapping function was called with, in order. *)
Definition mapped_ids (evs : list event) : list string :=
  omap (λ e, match e with EvPolicyMapping a _ => Some a | _ => None end) evs.

(** The calls of [agent.compute_action]: observation, policy id, answer. *)
Definition computes_of (evs : list event) : list (obs_t * option string * action_t) :=
  omap (λ e, match e with EvComputeAction o p a => Some (o, p, a) | _ => None end) evs.

(** The environment names [gym.make] was called with. *)
Definition gym_makes (evs : list event) : list pyval :=
  omap (λ e, match e with EvGymMake n => Some n | _ => None end) evs.

(** What was printed, in order. *)
Definition prints_of (evs : list event) : list print_t :=
  omap (λ e, match e with EvPrint p => Some p | _ => None end) evs.

(** The agents of a state dict that have an observation, with it. *)
Definition active_agents (items : list (string * obs_t)) : list (string * obs_t) :=
  omap (λ kv, match kv.2 with ONone => None | _ => Some kv end) items.

(** What one step adds to [reward_total]: the sum of the rewards of all
    agents in a multi-agent rollout, the reward itself otherwise. *)
Definition step_total (multi : bool) (r : action_t * step_result) : option Reward :=
  match st_reward r with
  | RDict items => if multi then Some (py_sum items.*2) else None
  | RNum x => if multi then None else Some x
  end.

(** [reward_total] after the steps [rs]: from the [float] 0.0, each step's
    total added in order. *)
Definition episode_reward (multi : bool) (rs : list (action_t * step_result))
  : option Reward :=
  foldl (λ acc r, a ← acc; t ← step_total multi r; Some (r_add a t)) (Some r_float0) rs.

End Calls.

(** ** Properties *)

Section Properties.
Context {D : Domain} {L : Library}.

Implicit Types (s : Sys) (l : Locals) (cx : Setup) (agent : Agent).

(** *** The monad *)

Lemma bind_Ok {A B} (m : M A) (k : A → M B) s b s' :
  (m ≫= k) s = Ok (b, s') ↔ ∃ a s1, m s = Ok (a, s1) ∧ k a s1 = Ok (b, s').
Proof.
  unfold mbind, M_bind, bind. destruct (m s) as [[a s1]|e]; split.
  - eauto.
  - intros (a' & s1' & Heq & Hk). by simplify_eq.
  - done.
  - intros (a' & s1' & Heq & Hk). done.
Qed.

Lemma bind_Raise {A B} (m : M A) (k : A → M B) s e :
  (m ≫= k) s = Raise e ↔
  m s = Raise e ∨ ∃ a s1, m s = Ok (a, s1) ∧ k a s1 = Raise e.
Proof.
  unfold mbind, M_bind, bind. destruct (m s) as [[a s1]|e']; naive_solver.
Qed.

Lemma ret_Ok {A} (a b : A) s s' : mret (M := M) a s = Ok (b, s') ↔ a = b ∧ s = s'.
Proof. unfold mret, M_ret, ret. split; [intros; by simplify_eq|intros [-> ->]; done]. Qed.

Lemma lift_Ok {A} (r : result A) s b s' : lift r s = Ok (b, s') ↔ r = Ok b ∧ s = s'.
Proof. unfold lift. destruct r; split; intros; destruct_and?; by simplify_eq. Qed.

Lemma lift_Raise {A} (r : result A) s e : lift r s = Raise e ↔ r = Raise e.
Proof. unfold lift. destruct r; split; intros; by simplify_eq. Qed.

Lemma lift_lib_Ok {A} name (o : option A) s b s' :
  lift_lib name o s = Ok (b, s') ↔ o = Some b ∧ s = s'.
Proof.
  unfold lift_lib. rewrite lift_Ok.
  destruct o; split; intros; destruct_and?; by simplify_eq.
Qed.

Lemma lift_lib_Raise {A} name (o : option A) s e :
  lift_lib name o s = Raise e ↔ o = None ∧ e = LibraryError name.
Proof.
  unfold lift_lib. rewrite lift_Raise.
  destruct o; split; intros; destruct_and?; by simplify_eq.
Qed.

Lemma ask_Ok {A} (f : World → A) s b s' : ask f s = Ok (b, s') ↔ b = f (world s) ∧ s' = s.
Proof. unfold ask. split; intros; destruct_and?; by simplify_eq. Qed.

Lemma call_Ok {A} (f : World → A * World) ev s a s' :
  call f ev s = Ok (a, s') ↔
  a = (f (world s)).1 ∧
  s' = {| world := (f (world s)).2; trace := trace s ++ [ev (f (world s)).1] |}.
Proof.
  unfold call. destruct (f (world s)) as [a' w] eqn:Hf; simpl.
  split; intros; destruct_and?; by simplify_eq.
Qed.

Lemma call__Ok (f : World → World) ev s u s' :
  call_ f ev s = Ok (u, s') ↔
  s' = {| world := f (world s); trace := trace s ++ [ev] |}.
Proof. unfold call_. rewrite call_Ok. simpl. destruct u. naive_solver. Qed.

Lemma emit_Ok ev s u s' :
  emit ev s = Ok (u, s') ↔ s' = {| world := world s; trace := trace s ++ [ev] |}.
Proof. unfold emit. destruct u. split; intros; by simplify_eq. Qed.

Lemma call_not_Raise {A} (f : World → A * World) ev s e : call f ev s ≠ Raise e.
Proof. unfold call. by destruct (f (world s)). Qed.

Lemma call__not_Raise (f : World → World) ev s e : call_ f ev s ≠ Raise e.
Proof. unfold call_. apply call_not_Raise. Qed.

Lemma result_bind_Ok {A B} (r : result A) (k : A → result B) b :
  r ≫= k = Ok b ↔ ∃ a, r = Ok a ∧ k a = Ok b.
Proof.
  unfold mbind, result_bind. destruct r; split; [eauto| |done|].
  - intros (? & ? & ?); by simplify_eq.
  - intros (? & ? & ?); done.
Qed.


Ltac minv1 :=
  match goal with
  | H : (_ ≫= _) _ = Ok _ |- _ =>
      apply bind_Ok in H; destruct H as (? & ? & ? & H); cbv beta in H
  | H : mret _ _ = Ok _ |- _ => apply ret_Ok in H; destruct H as [? ?]
  | H : lift_lib _ _ _ = Ok _ |- _ => apply lift_lib_Ok in H; destruct H as [H ?]
  | H : lift _ _ = Ok _ |- _ => apply lift_Ok in H; destruct H as [H ?]
  | H : ask _ _ = Ok _ |- _ => apply ask_Ok in H; destruct H as [? ?]
  | H : call_ _ _ _ = Ok _ |- _ => apply call__Ok in H
  | H : call _ _ _ = Ok _ |- _ => apply call_Ok in H; destruct H as [? ?]
  | H : emit _ _ = Ok _ |- _ => apply emit_Ok in H
  | H : raise _ _ = Ok _ |- _ => discriminate H
  | H : Raise _ = Ok _ |- _ => discriminate H
  | H : (_ ≫= _) = Ok _ |- _ =>
      apply result_bind_Ok in H; destruct H as (? & ? & H); cbv beta in H
  | H : Ok _ = Ok _ |- _ => injection H as H
  | H : (match ?x with _ => _ end) _ = Ok _ |- _ => destruct x eqn:?
  | H : match ?x with _ => _ end = Ok _ |- _ => destruct x eqn:?
  end.
Ltac minv := repeat (minv1; simplify_eq; simpl in * ).

(** *** One iteration *)

Lemma loop_body_Ok agent cx out no_render l s l' s' :
  loop_body agent cx out no_render l s = Ok (l', s') →
  ∃ action s1 next_state reward done stat w2 flag reward_total reward_for_each time statistics,
    choose_action agent cx l s = Ok ((action, l_mapping_cache l', l_state_init l'), s1) ∧
    env_step (env cx) (sent_action agent cx action) (world s1)
      = ((next_state, reward, done, stat), w2) ∧
    account cx l reward done stat = Ok (flag, reward_total, reward_for_each, time, statistics) ∧
    world s' = (if no_render then w2 else env_render (env cx) w2) ∧
    trace s' = trace s1
               ++ EvStep (sent_action agent cx action) (next_state, reward, done, stat)
               :: (if no_render then [] else [EvRender]) ∧
    l_rollout l' = match out with
                   | Some _ => (λ r, r ++ [(l_state l, action, next_state, reward, flag)])
                               <$> l_rollout l
                   | None => l_rollout l
                   end ∧
    (is_Some out → is_Some (l_rollout l)) ∧
    l_steps l' = (l_steps l + 1)%Z ∧ l_state l' = next_state ∧ l_done l' = flag ∧
    l_reward_total l' = reward_total ∧ l_reward_for_each l' = reward_for_each ∧
    l_time l' = time ∧ l_statistics l' = statistics.
Proof.
  unfold loop_body. intros H.
  apply bind_Ok in H as ([[action mc] si] & s1 & Hch & H).
  apply bind_Ok in H as ([[[ns rew] dn] stat] & s2 & Hstep & H).
  apply bind_Ok in H as ([[[[flag rt] rfe] tm] sts] & s3 & Hacc & H).
  apply lift_Ok in Hacc as [Hacc <-].
  apply bind_Ok in H as ([] & s4 & Hrender & H).
  apply bind_Ok in H as (ro & s5 & Hro & H).
  apply lift_Ok in Hro as [Hro <-]. apply ret_Ok in H as [<- <-].
  assert (call (env_step (env cx) (sent_action agent cx action))
               (EvStep (sent_action agent cx action)) s1 = Ok ((ns, rew, dn, stat), s2))
    as Hcall by (unfold sent_action; by destruct (config_clip_actions agent)).
  clear Hstep. apply call_Ok in Hcall as [Hres ->].
  destruct (env_step (env cx) (sent_action agent cx action) (world s1))
    as [res w2] eqn:Hstep. simpl in Hres. subst res.
  exists action, s1, ns, rew, dn, stat, w2, flag, rt, rfe, tm, sts. simpl.
  split_and!; try done.
  - destruct no_render; simpl in Hrender.
    + apply ret_Ok in Hrender as [_ <-]. done.
    + apply call__Ok in Hrender as ->. done.
  - destruct no_render; simpl in Hrender.
    + apply ret_Ok in Hrender as [_ <-]. done.
    + apply call__Ok in Hrender as ->. simpl. by rewrite <-app_assoc.
  - destruct out; [|by simplify_eq]. destruct (l_rollout l); by simplify_eq.
  - intros [f ->]. destruct (l_rollout l); [done|by simplify_eq].
Qed.


Lemma account_multi cx l reward done stat flag rt rfe tm sts :
  multiagent cx = true →
  account cx l reward done stat = Ok (flag, rt, rfe, tm, sts) →
  ∃ dm b items,
    done = DDict dm ∧ dm !! "__all__" = Some b ∧ flag = DBool b ∧
    reward = RDict items ∧
    rt = r_add (l_reward_total l) (py_sum items.*2) ∧
    rfe = add_rewards (l_reward_for_each l) items ∧
    tm = (l_time l + 5)%Z ∧
    sts = l_statistics l ++ [ {| se_statistics := stat;
                                 se_episode_reward := rfe;
                                 se_timestamp := tm |} ].
Proof.
  unfold account. intros -> H.
  destruct done as [b|dm]; [done|]. unfold subscript in H.
  destruct (dm !! "__all__") as [b|] eqn:Hall; [|done].
  destruct reward as [r|items]; [done|]. simpl in H. simplify_eq.
  by exists dm, b, items.
Qed.

Lemma account_single cx l reward done stat flag rt rfe tm sts :
  multiagent cx = false →
  account cx l reward done stat = Ok (flag, rt, rfe, tm, sts) →
  flag = done ∧ rfe = l_reward_for_each l ∧ tm = l_time l ∧ sts = l_statistics l ∧
  ∃ r, reward = RNum r ∧ rt = r_add (l_reward_total l) r.
Proof.
  unfold account. intros -> H.
  destruct reward as [r|items]; [|done]. simpl in H. simplify_eq. eauto 10.
Qed.

Lemma account_flag cx l reward done stat flag rt rfe tm sts :
  account cx l reward done stat = Ok (flag, rt, rfe, tm, sts) →
  done_flag (multiagent cx) done = Some flag.
Proof.
  intros H. unfold done_flag. destruct (multiagent cx) eqn:Hm.
  - apply account_multi in H as (dm & b & items & -> & Hall & -> & _); [|done].
    by rewrite Hall.
  - apply account_single in H as (-> & _); done.
Qed.

(** *** Choosing an action leaves only choice events *)

Lemma visit_agent_trace agent cx agent_id a_state acc s acc' s' :
  visit_agent agent cx agent_id a_state acc s = Ok (acc', s') →
  ∃ evs, trace s' = trace s ++ evs ∧ Forall choice_event evs.
Proof.
  unfold visit_agent. destruct acc as [[mc si] ad]. intros H.
  apply bind_Ok in H as (fn & s1 & Hfn & H). apply lift_Ok in Hfn as [_ <-].
  apply bind_Ok in H as (p & s2 & Hp & H). apply call_Ok in Hp as [-> ->].
  destruct (setdefault mc agent_id _) as [policy_id mc'].
  apply bind_Ok in H as (ul & s3 & Hul & H). apply lift_Ok in Hul as [_ <-].
  apply bind_Ok in H as ([a_action si'] & s4 & Hact & H).
  apply ret_Ok in H as [_ <-].
  destruct ul.
  - apply bind_Ok in Hact as (st & s5 & Hst & H). apply lift_Ok in Hst as [_ <-].
    apply bind_Ok in H as ([a ps] & s6 & Hc & H). apply call_Ok in Hc as [_ ->].
    apply bind_Ok in H as (si2 & s7 & Hs & H). apply lift_Ok in Hs as [_ <-].
    apply ret_Ok in H as [_ <-]. simpl.
    eexists [_; _]. rewrite <-app_assoc. split; [done|]. by repeat constructor.
  - apply bind_Ok in Hact as (a & s5 & Hc & H). apply call_Ok in Hc as [_ ->].
    apply ret_Ok in H as [_ <-]. simpl.
    eexists [_; _]. rewrite <-app_assoc. split; [done|]. by repeat constructor.
Qed.

Lemma agent_action_trace agent cx agent_id a_state acc s acc' s' :
  agent_action agent cx agent_id a_state acc s = Ok (acc', s') →
  ∃ evs, trace s' = trace s ++ evs ∧ Forall choice_event evs.
Proof.
  unfold agent_action. intros H.
  destruct a_state; try by eapply visit_agent_trace.
  apply ret_Ok in H as [_ <-]. exists []. by rewrite app_nil_r.
Qed.

Lemma for_agents_trace agent cx items acc s acc' s' :
  for_agents agent cx items acc s = Ok (acc', s') →
  ∃ evs, trace s' = trace s ++ evs ∧ Forall choice_event evs.
Proof.
  revert acc s. induction items as [|[agent_id a_state] items IH]; intros acc s H; simpl in H.
  - apply ret_Ok in H as [_ <-]. exists []. by rewrite app_nil_r.
  - apply bind_Ok in H as (acc1 & s1 & H1 & H).
    apply agent_action_trace in H1 as (evs1 & E1 & Hevs1).
    apply IH in H as (evs2 & E2 & Hevs2).
    exists (evs1 ++ evs2). rewrite app_assoc, <-E1, <-E2. split; [done|]. by apply Forall_app.
Qed.

Lemma choose_action_trace agent cx l s r s' :
  choose_action agent cx l s = Ok (r, s') →
  ∃ evs, trace s' = trace s ++ evs ∧ Forall choice_event evs.
Proof.
  unfold choose_action. intros H. destruct (multiagent cx).
  - destruct (l_state l) as [| |items]; try done.
    apply bind_Ok in H as ([[mc si] ad] & s1 & Hfor & H).
    apply ret_Ok in H as [_ <-]. by eapply for_agents_trace.
  - apply bind_Ok in H as (d & s1 & Hd & H). apply lift_Ok in Hd as [_ <-].
    destruct d.
    + apply bind_Ok in H as (st & s2 & Hst & H). apply lift_Ok in Hst as [_ <-].
      apply bind_Ok in H as ([a si] & s3 & Hc & H). apply call_Ok in Hc as [_ ->].
      apply ret_Ok in H as [_ <-]. simpl. eexists [_]. split; [done|]. by repeat constructor.
    + apply bind_Ok in H as (a & s3 & Hc & H). apply call_Ok in Hc as [_ ->].
      apply ret_Ok in H as [_ <-]. simpl. eexists [_]. split; [done|]. by repeat constructor.
Qed.


(** *** Reading the events of an iteration *)

Lemma steps_of_app (evs1 evs2 : list event) :
  steps_of (evs1 ++ evs2) = steps_of evs1 ++ steps_of evs2.
Proof. apply omap_app. Qed.

Lemma steps_of_choice (evs : list event) : Forall choice_event evs → steps_of evs = [].
Proof.
  induction 1 as [|e evs He _ IH]; [done|].
  destruct e; try done; simpl; apply IH.
Qed.

Lemma choice_loop_event (evs : list event) :
  Forall choice_event evs → Forall loop_event evs.
Proof. intros H. eapply Forall_impl; [done|]. by intros []. Qed.

Lemma json_dumps_loop (evs : list event) : Forall loop_event evs → json_dumps evs = [].
Proof.
  induction 1 as [|e evs He _ IH]; [done|].
  destruct e; try done; simpl; apply IH.
Qed.

Lemma pickle_dumps_loop (evs : list event) : Forall loop_event evs → pickle_dumps evs = [].
Proof.
  induction 1 as [|e evs He _ IH]; [done|].
  destruct e; try done; simpl; apply IH.
Qed.

(** What one iteration does, read off its events. *)
Lemma loop_body_events agent cx out no_render l s l' s' :
  loop_body agent cx out no_render l s = Ok (l', s') →
  ∃ evs action r flag,
    trace s' = trace s ++ evs ∧ Forall loop_event evs ∧ steps_of evs = [r] ∧
    st_action r = sent_action agent cx action ∧
    done_flag (multiagent cx) (st_done r) = Some flag ∧
    l_steps l' = (l_steps l + 1)%Z ∧ l_state l' = st_next_state r ∧ l_done l' = flag ∧
    l_rollout l' = match out with
                   | Some _ => (λ ts, ts ++ [(l_state l, action, st_next_state r,
                                              st_reward r, flag)]) <$> l_rollout l
                   | None => l_rollout l
                   end ∧
    (is_Some out → is_Some (l_rollout l)) ∧
    (if multiagent cx then
       ∃ items, st_reward r = RDict items ∧
         l_reward_for_each l' = add_rewards (l_reward_for_each l) items ∧
         l_time l' = (l_time l + 5)%Z ∧
         l_statistics l' = l_statistics l
                           ++ [ {| se_statistics := st_stat r;
                                   se_episode_reward := l_reward_for_each l';
                                   se_timestamp := l_time l' |} ]
     else
       l_reward_for_each l' = l_reward_for_each l ∧ l_time l' = l_time l ∧
       l_statistics l' = l_statistics l).
Proof.
  intros H. apply loop_body_Ok in H
    as (action & s1 & ns & rew & dn & stat & w2 & flag & rt & rfe & tm & sts
        & Hch & Hstep & Hacc & Hw & Htr & Hro & Hout & Hsteps & Hst & Hdn & Hrt & Hrfe
        & Htm & Hsts).
  apply choose_action_trace in Hch as (evs0 & Hevs0 & Hchoice).
  set (r := (sent_action agent cx action, (ns, rew, dn, stat))).
  exists (evs0 ++ EvStep (sent_action agent cx action) (ns, rew, dn, stat)
               :: (if no_render then [] else [EvRender])), action, r, flag.
  split_and!; try done.
  - by rewrite Htr, Hevs0, <-app_assoc.
  - apply Forall_app. split; [by apply choice_loop_event|].
    destruct no_render; by repeat constructor.
  - rewrite steps_of_app, steps_of_choice by done. by destruct no_render.
  - by eapply account_flag.
  - destruct (multiagent cx) eqn:Hm.
    + apply account_multi in Hacc as (dm & b & items & _ & _ & _ & -> & _ & E1 & E2 & E3);
        [|done].
      exists items. subst. rewrite Hrfe, Htm. split_and!; try done.
    + apply account_single in Hacc as (_ & E1 & E2 & E3 & _); [|done]. by subst.
Qed.

(** *** The loop *)

Lemma while_loop_Finished (P : Locals → Sys → Prop)
    fuel agent cx num_steps out no_render l s l' s' :
  P l s →
  (∀ l s l' s', P l s → loop_cond num_steps l = true →
     loop_body agent cx out no_render l s = Ok (l', s') → P l' s') →
  while_loop fuel agent cx num_steps out no_render l s = Finished (l', s') →
  P l' s' ∧ loop_cond num_steps l' = false.
Proof.
  intros HP Hstep. revert l s HP.
  induction fuel as [|fuel IH]; intros l s HP H; simpl in H;
    destruct (loop_cond num_steps l) eqn:Hc; simplify_eq; try done.
  destruct (loop_body agent cx out no_render l s) as [[l1 s1]|e] eqn:Hb; [|done].
  eapply IH; [|done]. eauto.
Qed.


(** *** Per-agent rewards *)

Lemma add_rewards_lookup (m : gmap string Reward) items k :
  add_rewards m items !! k =
  match rewards_of k items with
  | [] => m !! k
  | vs => Some (foldl r_add (default r_int0 (m !! k)) vs)
  end.
Proof.
  revert m. induction items as [|[k' v] items IH]; intros m; [done|].
  unfold add_rewards in *. simpl. rewrite IH. unfold rewards_of. simpl.
  unfold defaultdict_add. case_bool_decide as Hk.
  - subst k'. rewrite lookup_insert_eq. simpl. by destruct (omap _ items).
  - by rewrite lookup_insert_ne.
Qed.

Lemma cumulative_reward_snoc (m : gmap string Reward) rs r items k :
  m !! k = cumulative_reward k rs →
  st_reward r = RDict items →
  add_rewards m items !! k = cumulative_reward k (rs ++ [r]).
Proof.
  intros Hm Hr. rewrite add_rewards_lookup, Hm. unfold cumulative_reward.
  assert ([r] ≫= step_rewards k = rewards_of k items) as Hs.
  { change ([r] ≫= step_rewards k) with (step_rewards k r ++ []).
    rewrite app_nil_r. unfold step_rewards. by rewrite Hr. }
  rewrite bind_app, Hs.
  destruct (rs ≫= step_rewards k) as [|v0 vs0]; simpl.
  - by destruct (rewards_of k items).
  - destruct (rewards_of k items) as [|v vs]; simpl.
    + by rewrite app_nil_r.
    + by rewrite foldl_app.
Qed.

Lemma state_before_snoc st0 rs r i :
  i ≤ length rs → state_before st0 (rs ++ [r]) i = state_before st0 rs i.
Proof.
  destruct i as [|j]; [done|]. intros Hj. simpl. by rewrite lookup_app_l by lia.
Qed.

Lemma flag_after_snoc multi rs r i :
  i ≤ length rs → flag_after multi (rs ++ [r]) i = flag_after multi rs i.
Proof.
  destruct i as [|j]; [done|]. intros Hj. simpl. by rewrite lookup_app_l by lia.
Qed.

Lemma flag_after_last multi rs r :
  flag_after multi (rs ++ [r]) (S (length rs)) = done_flag multi (st_done r).
Proof. simpl. by rewrite list_lookup_middle. Qed.

Lemma loop_cond_running num_steps l :
  loop_cond num_steps l = true → done_truthy (l_done l) = false.
Proof. unfold loop_cond. intros [H _]%andb_prop. by apply negb_true_iff. Qed.


Lemma loop_inv_body agent cx num_steps out st0 no_render l rs s l' s' :
  loop_inv agent cx num_steps out st0 l rs →
  loop_cond num_steps l = true →
  loop_body agent cx out no_render l s = Ok (l', s') →
  ∃ evs r,
    trace s' = trace s ++ evs ∧ Forall loop_event evs ∧ steps_of evs = [r] ∧
    loop_inv agent cx num_steps out st0 l' (rs ++ [r]).
Proof.
  intros [Hsteps Hbound Hstate Hdone Hrun Hstats Hro] Hc Hb.
  apply loop_body_events in Hb
    as (evs & action & r & flag & Htr & Hev & Hso & Hact & Hflag & Hs' & Hst' & Hd'
        & Hro' & Hout & Hm).
  exists evs, r. split_and!; try done.
  assert (length (rs ++ [r]) = S (length rs)) as Hlen1
    by (rewrite length_app; simpl; lia).
  constructor.
  - rewrite Hs', Hsteps, Hlen1. lia.
  - intros i Hi. rewrite Hlen1 in Hi.
    destruct (decide (i < length rs)) as [Hlt|Hge]; [by apply Hbound|].
    assert (i = length rs) as -> by lia. rewrite <-Hsteps.
    unfold loop_cond in Hc. apply andb_prop in Hc as [_ Hc].
    by apply bool_decide_eq_true in Hc.
  - rewrite Hlen1. simpl. rewrite list_lookup_middle by done. simpl. by rewrite Hst'.
  - rewrite Hlen1, flag_after_last, Hflag. by rewrite Hd'.
  - intros i Hi. rewrite Hlen1 in Hi. rewrite flag_after_snoc by lia.
    destruct (decide (i < length rs)) as [Hlt|Hge]; [by apply Hrun|].
    assert (i = length rs) as -> by lia.
    exists (l_done l). split; [done|]. by eapply loop_cond_running.
  - destruct (multiagent cx).
    + destruct Hstats as (Hlen & Htime & Hrfe & Hent).
      destruct Hm as (items & Hrew & Hrfe' & Htime' & Hsts').
      split_and!.
      * rewrite Hsts', length_app, Hlen1. simpl. lia.
      * rewrite Htime', Htime, Hlen1. lia.
      * intros k. rewrite Hrfe'. by apply cumulative_reward_snoc.
      * intros i e Hi. rewrite Hsts' in Hi.
        apply lookup_snoc_Some in Hi as [[Hlt He]|[Hi <-]].
        -- destruct (Hent i e He) as (r0 & Hr0 & ? & ? & Hcum).
           exists r0. split_and!; try done.
           ++ rewrite lookup_app_l by lia. done.
           ++ intros k. rewrite take_app_le by lia. apply Hcum.
        -- exists r. rewrite Hi, Hlen. simpl. split_and!; try done.
           ++ by apply list_lookup_middle.
           ++ rewrite Htime', Htime. lia.
           ++ intros k. rewrite (take_ge (rs ++ [r])) by (rewrite Hlen1; lia).
              rewrite Hrfe'. by apply cumulative_reward_snoc.
    + destruct Hm as (E1 & E2 & E3). destruct Hstats as (? & ? & ?).
      rewrite E1, E2, E3. done.
  - destruct out as [file|].
    + destruct Hro as (ts & Hts & Hlen & Hent). rewrite Hts in Hro'. simpl in Hro'.
      eexists. split; [done|]. split.
      { rewrite length_app, Hlen1. simpl. lia. }
      intros i t Hi. apply lookup_snoc_Some in Hi as [[Hlt Ht]|[Hi <-]].
      * destruct (Hent i t Ht) as (r0 & a0 & st & fl & ? & ? & ? & ? & ?).
        exists r0, a0, st, fl. split_and!; try done.
        -- rewrite lookup_app_l by lia. done.
        -- rewrite state_before_snoc by lia. done.
        -- rewrite flag_after_snoc by lia. done.
      * exists r, action, (l_state l), flag. rewrite Hi, Hlen. split_and!; try done.
        -- by apply list_lookup_middle.
        -- rewrite state_before_snoc by lia. done.
        -- by rewrite flag_after_last.
    + by rewrite Hro'.
Qed.


(** *** The whole rollout *)

Lemma rollout_setup_Ok agent env_name s cx si s0 :
  rollout_setup agent env_name s = Ok ((cx, si), s0) →
  multiagent cx = is_multiagent agent ∧
  trace s0 = trace s ++ setup_events agent env_name.
Proof.
  unfold rollout_setup, is_multiagent, setup_events.
  destruct (local_evaluator agent) as [ev|]; intros H.
  - apply ret_Ok in H as [? <-]. simplify_eq. simpl. by rewrite app_nil_r.
  - apply bind_Ok in H as (e & s1 & Hc & H). apply call_Ok in Hc as [_ ->].
    apply ret_Ok in H as [? <-]. by simplify_eq.
Qed.

Lemma rollout_init_Ok agent cx num_steps out si s0 l0 s1 :
  rollout_init cx out si s0 = Ok (l0, s1) →
  ∃ st0, trace s1 = trace s0 ++ [EvReset st0] ∧ loop_inv agent cx num_steps out st0 l0 [].
Proof.
  unfold rollout_init. intros H.
  apply bind_Ok in H as (st0 & s2 & Hc & H). apply call_Ok in Hc as [-> ->].
  apply ret_Ok in H as [<- <-]. eexists. split; [done|].
  constructor; simpl; try done.
  - intros i Hi. lia.
  - intros i Hi. lia.
  - by destruct (multiagent cx).
  - destruct out; [|done]. exists []. split_and!; try done.
Qed.

Lemma rollout_end_Ok cx out l s2 u s' :
  rollout_end cx out l s2 = Ok (u, s') →
  ∃ e, trace s' = trace s2 ++ end_events out l e.
Proof.
  unfold rollout_end, end_events. intros H.
  apply bind_Ok in H as (e & s3 & Hc & H). apply call_Ok in Hc as [-> ->].
  apply bind_Ok in H as ([] & s4 & Hc & H). apply emit_Ok in Hc as ->.
  apply bind_Ok in H as ([] & s5 & Hc & H). apply emit_Ok in Hc as ->.
  apply bind_Ok in H as ([] & s6 & Hc & H). apply emit_Ok in Hc as ->.
  eexists. simpl in *. destruct out as [file|].
  - apply bind_Ok in H as (ts & s7 & Hts & H). apply lift_Ok in Hts as [Hts <-].
    destruct (l_rollout l); [|done]. simplify_eq. apply emit_Ok in H as ->. simpl.
    by rewrite <-!app_assoc.
  - apply ret_Ok in H as [_ <-]. simpl. by rewrite <-!app_assoc.
Qed.

Lemma rollout_Finished fuel agent env_name num_steps out no_render s l s' :
  rollout fuel agent env_name num_steps out no_render s = Finished (l, s') →
  ∃ cx state_init s0 st0 evs e,
    rollout_setup agent env_name s = Ok ((cx, state_init), s0) ∧
    multiagent cx = is_multiagent agent ∧
    trace s' = trace s ++ setup_events agent env_name
                       ++ EvReset st0 :: evs ++ end_events out l e ∧
    Forall loop_event evs ∧
    loop_inv agent cx num_steps out st0 l (steps_of evs) ∧
    loop_cond num_steps l = false.
Proof.
  unfold rollout. intros H.
  match type of H with
  | match ?x with _ => _ end = _ => destruct x as [[[cx l0] s1]|] eqn:Hpre; [|done]
  end.
  apply bind_Ok in Hpre as ([cx' si] & s0 & Hsetup & Hpre).
  apply bind_Ok in Hpre as (l0' & s1' & Hinit & Hret).
  apply ret_Ok in Hret as [Heq ->]. injection Heq as -> ->.
  pose proof Hsetup as Hsetup'.
  apply rollout_setup_Ok in Hsetup as [Hmulti Htr0].
  apply (rollout_init_Ok agent cx num_steps) in Hinit as (st0 & Htr1 & Hinv0).
  destruct (while_loop _ _ _ _ _ _ _ _) as [[l2 s2]| |] eqn:Hloop; try done.
  destruct (rollout_end cx out l2 s2) as [[[] s3]|] eqn:Hend; [|done]. simplify_eq.
  apply rollout_end_Ok in Hend as (e & Htr3).
  apply (while_loop_Finished
           (λ l s, ∃ evs, trace s = trace s1 ++ evs ∧ Forall loop_event evs ∧
                          loop_inv agent cx num_steps out st0 l (steps_of evs))) in Hloop.
  - destruct Hloop as [(evs & Htr2 & Hevs & Hinv) Hcond].
    exists cx, si, s0, st0, evs, e. split_and!; try done.
    rewrite Htr3, Htr2, Htr1, Htr0. by rewrite <-!app_assoc.
  - exists []. by rewrite app_nil_r.
  - intros la sa lb sb (evs & Htr & Hevs & Hinv) Hc Hb.
    eapply loop_inv_body in Hb as (evs' & r & Htr' & Hevs' & Hso & Hinv'); [|done..].
    exists (evs ++ evs'). split_and!.
    + by rewrite Htr', Htr, <-app_assoc.
    + by apply Forall_app.
    + by rewrite steps_of_app, Hso.
Qed.


Lemma while_loop_exit fuel agent cx num_steps out no_render l s :
  loop_cond num_steps l = false →
  while_loop fuel agent cx num_steps out no_render l s = Finished (l, s).
Proof. intros H. destruct fuel; simpl; by rewrite H. Qed.

(** *** Action clipping *)

(** C4: in every iteration of the loop, [env.step] is called once, with the
    action the policy chose clipped to the environment's action space when
    [agent.config["clip_actions"]] is set, and with that action itself when it
    is not. *)
Theorem clip_actions_conditional agent cx out no_render l s l' s' :
  loop_body agent cx out no_render l s = Ok (l', s') →
  ∃ action mapping_cache state_init s1 result w2 rest,
    choose_action agent cx l s = Ok ((action, mapping_cache, state_init), s1) ∧
    let passed :=
      if config_clip_actions agent
      then clip_action action (env_action_space (env cx))
      else action in
    env_step (env cx) passed (world s1) = (result, w2) ∧
    trace s' = trace s1 ++ EvStep passed result :: rest ∧
    steps_of rest = [].
Proof.
  intros H. apply loop_body_Ok in H
    as (action & s1 & ns & rew & dn & stat & w2 & flag & rt & rfe & tm & sts
        & Hch & Hstep & Hacc & Hw & Htr & _).
  exists action, (l_mapping_cache l'), (l_state_init l'), s1, (ns, rew, dn, stat), w2,
    (if no_render then [] else [EvRender]).
  split; [done|]. split; [done|]. split; [done|]. by destruct no_render.
Qed.

(** C9: when clipping is on and a trajectory is recorded, the transition an
    iteration appends holds the action as the policy chose it, while
    [env.step] got the clipped one. *)
Theorem recorded_action_unclipped agent cx file no_render l s l' s' :
  config_clip_actions agent = true →
  loop_body agent cx (Some file) no_render l s = Ok (l', s') →
  ∃ action mapping_cache state_init s1 next_state reward done stat w2 ts flag,
    choose_action agent cx l s = Ok ((action, mapping_cache, state_init), s1) ∧
    env_step (env cx) (clip_action action (env_action_space (env cx))) (world s1)
      = ((next_state, reward, done, stat), w2) ∧
    steps_of (drop (length (trace s)) (trace s'))
      = [(clip_action action (env_action_space (env cx)), (next_state, reward, done, stat))] ∧
    l_rollout l = Some ts ∧
    l_rollout l' = Some (ts ++ [(l_state l, action, next_state, reward, flag)]).
Proof.
  intros Hclip H. pose proof H as H'. apply loop_body_Ok in H
    as (action & s1 & ns & rew & dn & stat & w2 & flag & rt & rfe & tm & sts
        & Hch & Hstep & Hacc & Hw & Htr & Hro & Hout & _).
  unfold sent_action in *. rewrite Hclip in *.
  destruct Hout as [ts Hts]; [done|]. rewrite Hts in Hro.
  exists action, (l_mapping_cache l'), (l_state_init l'), s1, ns, rew, dn, stat, w2, ts, flag.
  split_and!; try done.
  apply choose_action_trace in Hch as (evs0 & Hevs0 & Hchoice).
  rewrite Htr, Hevs0, <-app_assoc, drop_app_length, steps_of_app, steps_of_choice by done.
  by destruct no_render.
Qed.

(** *** Episode termination in a multi-agent rollout *)

(** C3: in a multi-agent rollout, every iteration leaves in [done] the value
    under ["__all__"] of the done dict [env.step] returned, and when that
    value is true the loop stops there. *)
Theorem sentinel_ends_episode agent env_name s0 cx state_init s1
    num_steps out no_render l s l' s' :
  is_multiagent agent = true →
  rollout_setup agent env_name s0 = Ok ((cx, state_init), s1) →
  loop_body agent cx out no_render l s = Ok (l', s') →
  ∃ r dm b,
    steps_of (drop (length (trace s)) (trace s')) = [r] ∧
    st_done r = DDict dm ∧ dm !! "__all__" = Some b ∧
    l_done l' = DBool b ∧
    (b = true → ∀ fuel,
       while_loop fuel agent cx num_steps out no_render l' s' = Finished (l', s')).
Proof.
  intros Hmulti Hsetup H. apply rollout_setup_Ok in Hsetup as [Hcx _].
  rewrite Hmulti in Hcx.
  apply loop_body_events in H
    as (evs & action & r & flag & Htr & Hev & Hso & Hact & Hflag & _ & _ & Hd' & _).
  rewrite Hcx in Hflag. unfold done_flag in Hflag.
  destruct (st_done r) as [|dm] eqn:Hdone; [done|].
  destruct (dm !! "__all__") as [b|] eqn:Hall; [|done]. simpl in Hflag.
  injection Hflag as <-.
  exists r, dm, b. rewrite Htr, drop_app_length. split_and!; try done.
  intros -> fuel. apply while_loop_exit. unfold loop_cond. by rewrite Hd'.
Qed.


(** *** What a finished rollout leaves in the trace *)

Lemma json_dumps_app (evs1 evs2 : list event) :
  json_dumps (evs1 ++ evs2) = json_dumps evs1 ++ json_dumps evs2.
Proof. apply omap_app. Qed.

Lemma pickle_dumps_app (evs1 evs2 : list event) :
  pickle_dumps (evs1 ++ evs2) = pickle_dumps evs1 ++ pickle_dumps evs2.
Proof. apply omap_app. Qed.

Lemma resets_of_app (evs1 evs2 : list event) :
  resets_of (evs1 ++ evs2) = resets_of evs1 ++ resets_of evs2.
Proof. apply omap_app. Qed.

Lemma resets_of_loop (evs : list event) : Forall loop_event evs → resets_of evs = [].
Proof.
  induction 1 as [|e evs He _ IH]; [done|].
  destruct e; try done; simpl; apply IH.
Qed.

Lemma setup_events_quiet agent env_name :
  steps_of (setup_events agent env_name) = [] ∧
  json_dumps (setup_events agent env_name) = [] ∧
  pickle_dumps (setup_events agent env_name) = [] ∧
  resets_of (setup_events agent env_name) = [].
Proof. unfold setup_events. by destruct (local_evaluator agent). Qed.

Lemma end_events_observed out l e :
  steps_of (end_events out l e) = [] ∧
  resets_of (end_events out l e) = [] ∧
  json_dumps (end_events out l e) = [(statistics_file, l_statistics l)] ∧
  pickle_dumps (end_events out l e)
    = match out, l_rollout l with
      | Some file, Some ts => [(file, ts)]
      | _, _ => []
      end.
Proof. unfold end_events. destruct out, (l_rollout l); done. Qed.

(** The events of a finished rollout, as the observers read them. *)
Lemma rollout_observed fuel agent env_name num_steps out no_render s l s' :
  rollout fuel agent env_name num_steps out no_render s = Finished (l, s') →
  ∃ cx state_init s0 st0 evs,
    rollout_setup agent env_name s = Ok ((cx, state_init), s0) ∧
    multiagent cx = is_multiagent agent ∧
    trace s' = trace s ++ evs ∧
    resets_of evs = [st0] ∧
    json_dumps evs = [(statistics_file, l_statistics l)] ∧
    pickle_dumps evs = match out, l_rollout l with
                       | Some file, Some ts => [(file, ts)]
                       | _, _ => []
                       end ∧
    loop_inv agent cx num_steps out st0 l (steps_of evs) ∧
    loop_cond num_steps l = false.
Proof.
  intros H. apply rollout_Finished in H
    as (cx & si & s0 & st0 & evs & e & Hsetup & Hmulti & Htr & Hevs & Hinv & Hcond).
  destruct (setup_events_quiet agent env_name) as (S1 & S2 & S3 & S4).
  destruct (end_events_observed out l e) as (E1 & E2 & E3 & E4).
  exists cx, si, s0, st0, (setup_events agent env_name ++ EvReset st0 :: evs ++ end_events out l e).
  split_and!; try done.
  - rewrite resets_of_app, S4. simpl. by rewrite resets_of_app, resets_of_loop, E2.
  - rewrite json_dumps_app, S2. simpl. by rewrite json_dumps_app, json_dumps_loop, E3.
  - rewrite pickle_dumps_app, S3. simpl. by rewrite pickle_dumps_app, pickle_dumps_loop, E4.
  - rewrite steps_of_app, S1. simpl. by rewrite steps_of_app, E1, app_nil_r.
Qed.


(** *** The statistics record *)

(** C1, amended: a rollout that returns writes [statistics] as JSON exactly
    once, after its last [env.step]. In a multi-agent rollout [statistics] has
    one entry per [env.step], in order: the [i]-th holds the metrics that
    step returned, every agent's rewards added up over the steps up to and
    including it, and the timestamp [5 * i]. In a single-agent rollout
    [statistics] is empty. *)
Theorem statistics_record fuel agent env_name num_steps out no_render s l s' :
  rollout fuel agent env_name num_steps out no_render s = Finished (l, s') →
  ∃ before after,
    trace s' = trace s ++ before ++ EvJsonDump statistics_file (l_statistics l) :: after ∧
    json_dumps before = [] ∧ json_dumps after = [] ∧ steps_of after = [] ∧
    let rs := steps_of before in
    if is_multiagent agent then
      length (l_statistics l) = length rs ∧
      ∀ i e, l_statistics l !! i = Some e →
        ∃ r, rs !! i = Some r ∧
          se_statistics e = st_stat r ∧
          se_timestamp e = (5 * Z.of_nat i)%Z ∧
          ∀ k, se_episode_reward e !! k = cumulative_reward k (take (S i) rs)
    else l_statistics l = [].
Proof.
  intros H. apply rollout_Finished in H
    as (cx & si & s0 & st0 & evs & e & Hsetup & Hmulti & Htr & Hevs & Hinv & Hcond).
  destruct (setup_events_quiet agent env_name) as (S1 & S2 & S3 & S4).
  exists (setup_events agent env_name ++ EvReset st0 :: evs
          ++ [ EvPrint (PrintEndStatistics e);
               EvPrint (PrintEpisodeReward (l_reward_total l));
               EvPrint (PrintRewardForEach (l_reward_for_each l)) ]),
    (match out, l_rollout l with
     | Some file, Some ts => [EvPickleDump file ts]
     | _, _ => []
     end).
  assert (steps_of (setup_events agent env_name ++ EvReset st0 :: evs
          ++ [ EvPrint (PrintEndStatistics e);
               EvPrint (PrintEpisodeReward (l_reward_total l));
               EvPrint (PrintRewardForEach (l_reward_for_each l)) ]) = steps_of evs) as Hrs.
  { rewrite steps_of_app, S1. simpl. by rewrite steps_of_app, app_nil_r. }
  split_and!.
  - rewrite Htr. unfold end_events. f_equal. rewrite <-!app_assoc. simpl.
    f_equal. f_equal. by rewrite <-!app_assoc.
  - rewrite json_dumps_app, S2. simpl. by rewrite json_dumps_app, json_dumps_loop.
  - by destruct out, (l_rollout l).
  - by destruct out, (l_rollout l).
  - simpl. rewrite Hrs. pose proof (inv_stats _ _ _ _ _ _ _ Hinv) as Hstats.
    rewrite Hmulti in Hstats. destruct (is_multiagent agent).
    + destruct Hstats as (Hlen & _ & _ & Hent). done.
    + by destruct Hstats.
Qed.


(** *** The recorded trajectory *)

(** C7: with an output file name, a rollout that returns pickles its
    trajectory exactly once, as its last action; the trajectory has one
    transition per [env.step], in order, holding the state the step started
    from, the action chosen, and the next state, the reward and the
    termination flag of that step. Without an output file name no trajectory
    is kept and none is written. *)
Theorem trajectory_record fuel agent env_name num_steps out no_render s l s' :
  rollout fuel agent env_name num_steps out no_render s = Finished (l, s') →
  ∃ cx state_init s0 st0 evs,
    rollout_setup agent env_name s = Ok ((cx, state_init), s0) ∧
    trace s' = trace s ++ evs ∧ resets_of evs = [st0] ∧
    let rs := steps_of evs in
    match out with
    | Some file =>
        ∃ ts, l_rollout l = Some ts ∧
          pickle_dumps evs = [(file, ts)] ∧
          last evs = Some (EvPickleDump file ts) ∧
          length ts = length rs ∧
          ∀ i t, ts !! i = Some t →
            ∃ r action st flag,
              rs !! i = Some r ∧
              st_action r = sent_action agent cx action ∧
              state_before st0 rs i = Some st ∧
              flag_after (is_multiagent agent) rs (S i) = Some flag ∧
              t = (st, action, st_next_state r, st_reward r, flag)
    | None => l_rollout l = None ∧ pickle_dumps evs = []
    end.
Proof.
  intros H. apply rollout_Finished in H
    as (cx & si & s0 & st0 & evs & e & Hsetup & Hmulti & Htr & Hevs & Hinv & Hcond).
  destruct (setup_events_quiet agent env_name) as (S1 & S2 & S3 & S4).
  destruct (end_events_observed out l e) as (E1 & E2 & E3 & E4).
  exists cx, si, s0, st0,
    (setup_events agent env_name ++ EvReset st0 :: evs ++ end_events out l e).
  assert (steps_of (setup_events agent env_name ++ EvReset st0 :: evs
                    ++ end_events out l e) = steps_of evs) as Hrs.
  { rewrite steps_of_app, S1. simpl. by rewrite steps_of_app, E1, app_nil_r. }
  assert (pickle_dumps (setup_events agent env_name ++ EvReset st0 :: evs
                        ++ end_events out l e)
          = match out, l_rollout l with
            | Some file, Some ts => [(file, ts)]
            | _, _ => []
            end) as Hpk.
  { rewrite pickle_dumps_app, S3. simpl.
    by rewrite pickle_dumps_app, pickle_dumps_loop, E4. }
  split_and!; try done.
  { rewrite resets_of_app, S4. simpl. by rewrite resets_of_app, resets_of_loop, E2. }
  simpl. rewrite Hrs, Hpk. pose proof (inv_rollout _ _ _ _ _ _ _ Hinv) as Hro.
  rewrite Hmulti in Hro. destruct out as [file|].
  - destruct Hro as (ts & Hts & Hlen & Hent). exists ts. rewrite Hts.
    split_and!; try done.
    unfold end_events. rewrite Hts.
    change (EvReset st0 :: evs ++ ?a ++ [?x]) with ((EvReset st0 :: evs) ++ a ++ [x]).
    rewrite !app_assoc. apply last_snoc.
  - by rewrite Hro.
Qed.

(** *** The step bound *)

Lemma loop_body_steps agent cx out no_render l s l' s' :
  loop_body agent cx out no_render l s = Ok (l', s') → l_steps l' = (l_steps l + 1)%Z.
Proof.
  intros H. apply loop_body_events in H as (? & ? & ? & ? & ? & ? & ? & ? & ? & H & _).
  done.
Qed.

Lemma loop_cond_bound n l :
  n ≠ 0%Z → loop_cond (Some n) l = true → (l_steps l < n)%Z.
Proof.
  unfold loop_cond, or_int. intros Hn [_ H]%andb_prop.
  destruct (n =? 0)%Z eqn:E; [lia|]. by apply bool_decide_eq_true in H.
Qed.

Lemma while_loop_fuel n fuel agent cx out no_render l s :
  n ≠ 0%Z → (n - l_steps l ≤ Z.of_nat fuel)%Z →
  while_loop fuel agent cx (Some n) out no_render l s ≠ OutOfFuel.
Proof.
  intros Hn. revert l s. induction fuel as [|fuel IH]; intros l s Hfuel; simpl.
  - destruct (loop_cond (Some n) l) eqn:Hc; [|done].
    apply loop_cond_bound in Hc; [lia|done].
  - destruct (loop_cond (Some n) l) eqn:Hc; [|done].
    destruct (loop_body agent cx out no_render l s) as [[l1 s1]|e] eqn:Hb; [|done].
    apply IH. apply loop_body_steps in Hb. lia.
Qed.

Lemma loop_cond_unbounded num_steps l :
  num_steps = None ∨ num_steps = Some 0%Z →
  loop_cond num_steps l = negb (done_truthy (l_done l)).
Proof.
  unfold loop_cond, or_int. intros [-> | ->]; simpl;
    rewrite bool_decide_eq_true_2 by lia; apply andb_true_r.
Qed.


(** C10: with [num_steps > 0] the loop runs at most [num_steps] iterations:
    that many iterations of fuel always suffice, and on return the counter,
    which is the number of calls of [env.step], is between 0 and [num_steps],
    and either [done] is true or the counter has reached [num_steps]. With
    [num_steps] 0 or [None] the condition of the loop is [not done] alone, and
    the rollout returns only with [done] true. *)
Theorem steps_bounded agent env_name out no_render s :
  (∀ n, (0 < n)%Z →
     (∀ fuel, Z.to_nat n ≤ fuel →
        rollout fuel agent env_name (Some n) out no_render s ≠ OutOfFuel) ∧
     (∀ fuel l s',
        rollout fuel agent env_name (Some n) out no_render s = Finished (l, s') →
        (0 ≤ l_steps l ≤ n)%Z ∧
        (done_truthy (l_done l) = true ∨ l_steps l = n) ∧
        ∃ evs, trace s' = trace s ++ evs ∧ l_steps l = Z.of_nat (length (steps_of evs)))) ∧
  (∀ num_steps, num_steps = None ∨ num_steps = Some 0%Z →
     (∀ l, loop_cond num_steps l = negb (done_truthy (l_done l))) ∧
     (∀ fuel l s',
        rollout fuel agent env_name num_steps out no_render s = Finished (l, s') →
        done_truthy (l_done l) = true ∧
        ∃ evs, trace s' = trace s ++ evs ∧ l_steps l = Z.of_nat (length (steps_of evs)))).
Proof.
  assert (∀ fuel num_steps l s',
            rollout fuel agent env_name num_steps out no_render s = Finished (l, s') →
            ∃ evs, trace s' = trace s ++ evs ∧ l_steps l = Z.of_nat (length (steps_of evs)))
    as Hcount.
  { intros fuel num_steps l s' H. apply rollout_observed in H
      as (cx & si & s0 & st0 & evs & _ & _ & Htr & _ & _ & _ & Hinv & _).
    exists evs. split; [done|]. apply (inv_steps _ _ _ _ _ _ _ Hinv). }
  split.
  - intros n Hn. split.
    + intros fuel Hfuel. unfold rollout.
      match goal with
      | |- match ?x with _ => _ end ≠ _ => destruct x as [[[cx l0] s1]|] eqn:Hpre; [|done]
      end.
      apply bind_Ok in Hpre as ([cx' si] & s0 & Hsetup & Hpre).
      apply bind_Ok in Hpre as (l0' & s1' & Hinit & Hret).
      apply ret_Ok in Hret as [Heq ->]. injection Heq as -> ->.
      apply (rollout_init_Ok agent cx (Some n)) in Hinit as (st0 & _ & Hinv0).
      pose proof (inv_steps _ _ _ _ _ _ _ Hinv0) as H0. simpl in H0.
      pose proof (while_loop_fuel n fuel agent cx out no_render l0 s1) as Hw.
      destruct (while_loop _ _ _ _ _ _ _ _) as [[l2 s2]| |]; try done.
      * by destruct (rollout_end cx out l2 s2) as [[[] ?]|].
      * exfalso. apply Hw; [lia|lia|done].
    + intros fuel l s' H. split; [|split; [|by eapply Hcount]].
      all: apply rollout_observed in H
        as (cx & si & s0 & st0 & evs & _ & _ & _ & _ & _ & _ & Hinv & Hcond).
      * pose proof (inv_steps _ _ _ _ _ _ _ Hinv) as Hs. split; [lia|].
        destruct (decide (length (steps_of evs) = 0)) as [E|E]; [rewrite Hs, E; lia|].
        pose proof (inv_bound _ _ _ _ _ _ _ Hinv (length (steps_of evs) - 1)) as Hb.
        unfold or_int in Hb. destruct (n =? 0)%Z eqn:E0; lia.
      * unfold loop_cond, or_int in Hcond. destruct (n =? 0)%Z eqn:E0; [lia|].
        apply andb_false_iff in Hcond as [Hd|Hs].
        -- left. by apply negb_false_iff.
        -- right. apply bool_decide_eq_false in Hs.
           pose proof (inv_steps _ _ _ _ _ _ _ Hinv) as Hst.
           destruct (decide (length (steps_of evs) = 0)) as [E|E]; [rewrite Hst, E in Hs; lia|].
           pose proof (inv_bound _ _ _ _ _ _ _ Hinv (length (steps_of evs) - 1)) as Hb.
           unfold or_int in Hb. rewrite E0 in Hb. lia.
  - intros num_steps Hns. split; [intros l; by apply loop_cond_unbounded|].
    intros fuel l s' H. split; [|by eapply Hcount].
    apply rollout_observed in H
      as (cx & si & s0 & st0 & evs & _ & _ & _ & _ & _ & _ & _ & Hcond).
    rewrite loop_cond_unbounded in Hcond by done. by apply negb_false_iff.
Qed.


(** *** The configuration resolver *)

Lemma del_if_in_delete k (d : Config) : del_if_in k d = delete k d.
Proof.
  unfold del_if_in. case_bool_decide as H; [done|].
  symmetry. apply delete_id. by apply eq_None_not_Some.
Qed.

(** [run_config], case by case. *)
Lemma run_config_eq args s :
  run_config args s =
  let w := world s in
  let finish (file_config : Config) :=
    match merge_dicts (without_workers file_config) (args_config args) with
    | Some config => Ok (config, s)
    | None => Raise (LibraryError "merge_dicts")
    end in
  let load (path : string) :=
    match pickle_load w path with
    | Some file_config => finish file_config
    | None => Raise (LibraryError "pickle.load")
    end in
  if path_exists w (own_params args) then load (own_params args)
  else if path_exists w (parent_params args) then load (parent_params args)
  else if bool_decide (args_config args = ∅) then Raise (ValueError no_params_msg)
  else finish ∅.
Proof.
  unfold run_config, own_params, parent_params, without_workers.
  unfold mbind, M_bind, bind, ask, lift_lib, lift, raise, mret, M_ret, ret, dict_truthy.
  simpl.
  destruct (path_exists (world s) (path_join _ "params.pkl")) eqn:E1; simpl.
  - rewrite E1. simpl. destruct (pickle_load _ _); [|done].
    rewrite !del_if_in_delete. by destruct (merge_dicts _ _).
  - destruct (path_exists (world s) (path_join _ "../params.pkl")) eqn:E2; simpl.
    + destruct (pickle_load _ _); [|done].
      rewrite !del_if_in_delete. by destruct (merge_dicts _ _).
    + case_bool_decide; simpl; [done|].
      rewrite !del_if_in_delete. by destruct (merge_dicts _ _).
Qed.

Lemma run_config_Ok args s config s' :
  run_config args s = Ok (config, s') →
  s' = s ∧
  ∃ file_config,
    (if path_exists (world s) (own_params args)
     then pickle_load (world s) (own_params args) = Some file_config
     else if path_exists (world s) (parent_params args)
     then pickle_load (world s) (parent_params args) = Some file_config
     else file_config = ∅ ∧ args_config args ≠ ∅) ∧
    merge_dicts (without_workers file_config) (args_config args) = Some config.
Proof.
  rewrite run_config_eq. simpl.
  destruct (path_exists _ (own_params args)).
  { destruct (pickle_load _ _) as [fc|] eqn:E; [|done].
    destruct (merge_dicts _ _) eqn:Em; [|done]. intros; simplify_eq. eauto. }
  destruct (path_exists _ (parent_params args)).
  { destruct (pickle_load _ _) as [fc|] eqn:E; [|done].
    destruct (merge_dicts _ _) eqn:Em; [|done]. intros; simplify_eq. eauto. }
  case_bool_decide; [done|].
  destruct (merge_dicts _ _) eqn:Em; [|done]. intros; simplify_eq. eauto.
Qed.

Lemma run_config_Raise args s e :
  run_config args s = Raise e →
  (e = ValueError no_params_msg ∧
   path_exists (world s) (own_params args) = false ∧
   path_exists (world s) (parent_params args) = false ∧
   args_config args = ∅) ∨
  ∃ name, e = LibraryError name.
Proof.
  rewrite run_config_eq. simpl.
  destruct (path_exists _ (own_params args)).
  { destruct (pickle_load _ _); [destruct (merge_dicts _ _)|]; intros; simplify_eq; eauto. }
  destruct (path_exists _ (parent_params args)).
  { destruct (pickle_load _ _); [destruct (merge_dicts _ _)|]; intros; simplify_eq; eauto. }
  case_bool_decide.
  - intros; simplify_eq. left. done.
  - destruct (merge_dicts _ _); intros; simplify_eq; eauto.
Qed.

Lemma run_env_Ok args config s env s' :
  run_env args config s = Ok (env, s') →
  s' = s ∧
  env = (if truthy (args_env args) then args_env args else dict_get config "env") ∧
  (truthy (args_env args) = false → truthy (dict_get config "env") = true).
Proof.
  unfold run_env. destruct (truthy (args_env args)); simpl.
  - intros [-> ->]%ret_Ok. done.
  - destruct (truthy (dict_get config "env")); simpl; [|done].
    intros (? & ? & [_ <-]%ret_Ok & [-> ->]%ret_Ok)%bind_Ok. done.
Qed.

Lemma run_env_Raise args config s e :
  run_env args config s = Raise e ↔
  e = ParserError env_required_msg ∧
  truthy (args_env args) = false ∧ truthy (dict_get config "env") = false.
Proof.
  unfold run_env. destruct (truthy (args_env args)); simpl.
  - split; [done|]. by intros (_ & ? & _).
  - destruct (truthy (dict_get config "env")); simpl.
    + split; [|by intros (_ & _ & ?)].
      intros [H|(? & ? & [_ <-]%ret_Ok & H)]%bind_Raise; done.
    + split.
      * intros [H|(? & ? & H & _)]%bind_Raise; [|done].
        unfold raise in H. by simplify_eq.
      * intros (-> & _). done.
Qed.


(** *** The exceptions of [rollout] *)

Ltac destruct_scrutinee x :=
  lazymatch x with
  | match ?y with _ => _ end => destruct_scrutinee y
  | _ => destruct x
  end.

Ltac raise_inv1 :=
  match goal with
  | H : (_ ≫= _) _ = Raise _ |- _ =>
      apply bind_Raise in H as [H|(? & ? & _ & H)]; cbv beta in H
  | H : lift _ _ = Raise _ |- _ => apply lift_Raise in H
  | H : call _ _ _ = Raise _ |- _ => by apply call_not_Raise in H
  | H : call_ _ _ _ = Raise _ |- _ => by apply call__not_Raise in H
  | H : emit _ _ = Raise _ |- _ => discriminate H
  | H : mret _ _ = Raise _ |- _ => discriminate H
  | H : raise _ _ = Raise _ |- _ => injection H as <-
  | H : Raise _ = Raise _ |- _ => injection H as <-
  | H : Ok _ = Raise _ |- _ => discriminate H
  | H : subscript _ _ = Raise _ |- _ =>
      unfold subscript in H
  | H : (match ?x with _ => _ end) _ = Raise _ |- _ => destruct_scrutinee x
  | H : match ?x with _ => _ end = Raise _ |- _ => destruct_scrutinee x
  | H : (_ ≫= _) = Raise _ |- _ =>
      unfold mbind, result_bind in H
  end.
Ltac raise_inv := repeat raise_inv1; try done.

Lemma agent_action_Raise agent cx agent_id a_state acc s e :
  agent_action agent cx agent_id a_state acc s = Raise e → script_exn e.
Proof.
  unfold agent_action, visit_agent, state_init_get, state_init_set, subscript. intros H.
  destruct acc as [[mc si] ad]. raise_inv.
Qed.

Lemma for_agents_Raise agent cx items acc s e :
  for_agents agent cx items acc s = Raise e → script_exn e.
Proof.
  revert acc s. induction items as [|[agent_id a_state] items IH]; intros acc s H;
    simpl in H; [done|].
  apply bind_Raise in H as [H|(? & ? & _ & H)]; [by eapply agent_action_Raise|eauto].
Qed.

Lemma choose_action_Raise agent cx l s e :
  choose_action agent cx l s = Raise e → script_exn e.
Proof.
  unfold choose_action. intros H. destruct (multiagent cx).
  - destruct (l_state l); try by (unfold raise in H; simplify_eq).
    apply bind_Raise in H as [H|(? & ? & _ & H)]; [by eapply for_agents_Raise|].
    raise_inv.
  - raise_inv.
Qed.

Lemma account_Raise cx l reward done stat e :
  account cx l reward done stat = Raise e → script_exn e.
Proof. unfold account, subscript. intros H. raise_inv. Qed.

Lemma loop_body_Raise agent cx out no_render l s e :
  loop_body agent cx out no_render l s = Raise e → script_exn e.
Proof.
  unfold loop_body. intros H.
  apply bind_Raise in H as [H|(? & ? & _ & H)]; [by eapply choose_action_Raise|].
  cbv beta in H. raise_inv. by eapply account_Raise.
Qed.

Lemma while_loop_Raised fuel agent cx num_steps out no_render l s e :
  while_loop fuel agent cx num_steps out no_render l s = Raised e → script_exn e.
Proof.
  revert l s. induction fuel as [|fuel IH]; intros l s H; simpl in H;
    destruct (loop_cond num_steps l); try done.
  destruct (loop_body agent cx out no_render l s) as [[l1 s1]|e'] eqn:Hb; [eauto|].
  simplify_eq. by eapply loop_body_Raise.
Qed.

Lemma rollout_Raised fuel agent env_name num_steps out no_render s e :
  rollout fuel agent env_name num_steps out no_render s = Raised e → script_exn e.
Proof.
  unfold rollout. intros H.
  match type of H with
  | match ?x with _ => _ end = _ => destruct x as [[[cx l0] s1]|e'] eqn:Hpre
  end.
  - destruct (while_loop _ _ _ _ _ _ _ _) as [[l2 s2]|e'|] eqn:Hloop; try done.
    + destruct (rollout_end cx out l2 s2) as [[[] s3]|e'] eqn:Hend; [done|].
      simplify_eq. unfold rollout_end in Hend. raise_inv.
    + simplify_eq. by eapply while_loop_Raised.
  - simplify_eq. unfold rollout_setup, rollout_init in Hpre. raise_inv.
Qed.


(** *** [run] up to the call of [rollout] *)

Lemma agent_inits_app (evs1 evs2 : list event) :
  agent_inits (evs1 ++ evs2) = agent_inits evs1 ++ agent_inits evs2.
Proof. apply omap_app. Qed.

Lemma run_prepare_Ok args s agent env num_steps s' :
  run_prepare args s = Ok ((agent, env, num_steps), s') →
  ∃ config,
    run_config args s = Ok (config, s) ∧
    run_env args config s = Ok (env, s) ∧
    py_int (args_steps args) = Ok num_steps ∧
    trace s' = trace s ++ [ EvRayInit; EvAgentInit (args_run args) env config;
                            EvRestore (args_checkpoint args) ].
Proof.
  unfold run_prepare. intros H.
  apply bind_Ok in H as (config & s1 & Hconfig & H).
  pose proof Hconfig as [-> _]%run_config_Ok.
  apply bind_Ok in H as (env' & s2 & Henv & H).
  pose proof Henv as (-> & _ & _)%run_env_Ok.
  apply bind_Ok in H as ([] & s3 & Hray & H). apply call__Ok in Hray as ->.
  apply bind_Ok in H as (cls & s4 & Hcls & H). apply lift_lib_Ok in Hcls as [Hcls <-].
  apply bind_Ok in H as (agent' & s5 & Hagent & H). apply call_Ok in Hagent as [-> ->].
  apply bind_Ok in H as ([] & s6 & Hrestore & H). apply call__Ok in Hrestore as ->.
  apply bind_Ok in H as (n & s7 & Hint & H). apply lift_Ok in Hint as [Hint <-].
  apply ret_Ok in H as [Heq <-]. injection Heq as <- <- <-.
  exists config. split_and!; try done. simpl. by rewrite <-!app_assoc.
Qed.

Lemma py_int_Raise v e :
  py_int v = Raise e → e = TypeError ∨ e = ValueError "invalid literal for int()".
Proof.
  unfold py_int. destruct v; try (intros; simplify_eq; by left).
  destruct (int_of_str s); intros; simplify_eq. by right.
Qed.

Lemma run_prepare_Raise args s e :
  run_prepare args s = Raise e →
  run_config args s = Raise e ∨
  (∃ config, run_config args s = Ok (config, s) ∧ run_env args config s = Raise e) ∨
  (∃ config env, run_config args s = Ok (config, s) ∧ run_env args config s = Ok (env, s) ∧
     (e = LibraryError "get_agent_class" ∨ py_int (args_steps args) = Raise e)).
Proof.
  unfold run_prepare. intros H.
  apply bind_Raise in H as [H|(config & s1 & Hconfig & H)]; [by left|]. right.
  pose proof Hconfig as [-> _]%run_config_Ok.
  apply bind_Raise in H as [H|(env & s2 & Henv & H)]; [left; eauto|]. right.
  pose proof Henv as (-> & _ & _)%run_env_Ok.
  exists config, env. split; [done|]. split; [done|].
  apply bind_Raise in H as [H|(? & ? & _ & H)]; [by apply call__not_Raise in H|].
  apply bind_Raise in H as [H|(? & ? & _ & H)].
  { apply lift_lib_Raise in H as [_ ->]. by left. }
  apply bind_Raise in H as [H|(? & ? & _ & H)]; [by apply call_not_Raise in H|].
  apply bind_Raise in H as [H|(? & ? & _ & H)]; [by apply call__not_Raise in H|].
  apply bind_Raise in H as [H|(? & ? & _ & H)]; [|done].
  apply lift_Raise in H. by right.
Qed.

Lemma run_Raised fuel args s e :
  run fuel args s = Raised e →
  run_prepare args s = Raise e ∨ script_exn e.
Proof.
  unfold run. destruct (run_prepare args s) as [[[[agent env] n] s1]|e'] eqn:Hp.
  - intros H. right. by eapply rollout_Raised.
  - intros; simplify_eq. by left.
Qed.

(** C5: [run] raises the error about the missing [params.pkl] exactly when
    neither the checkpoint directory nor its parent has a [params.pkl] and
    the [--config] mapping is empty. *)
Theorem no_config_error fuel args s :
  run fuel args s = Raised (ValueError no_params_msg) ↔
  path_exists (world s) (own_params args) = false ∧
  path_exists (world s) (parent_params args) = false ∧
  args_config args = ∅.
Proof.
  split.
  - intros [H|H]%run_Raised; [|done].
    apply run_prepare_Raise in H as [H|[(config & _ & H)|(config & env & _ & _ & [H|H])]].
    + apply run_config_Raise in H as [(_ & ? & ? & ?)|[name ?]]; done.
    + by apply run_env_Raise in H as (? & _).
    + done.
    + apply py_int_Raise in H as [H|H]; [done|].
      unfold no_params_msg in H. discriminate H.
  - intros (E1 & E2 & E3). unfold run, run_prepare.
    unfold mbind at 1. unfold M_bind, bind.
    rewrite run_config_eq. simpl. rewrite E1, E2.
    by rewrite bool_decide_eq_true_2.
Qed.

(** C6: [run] ends in the parser's error exactly when it has a merged
    configuration, [args.env] is not given and the configuration has no
    truthy ["env"]; when [args.env] is not given and the configuration has
    one, [args.env] becomes that value and the agent is built with it. *)
Theorem env_required_error fuel args s :
  (run fuel args s = Raised (ParserError env_required_msg) ↔
   ∃ config, run_config args s = Ok (config, s) ∧
     truthy (args_env args) = false ∧ truthy (dict_get config "env") = false) ∧
  (∀ config, run_config args s = Ok (config, s) →
     truthy (args_env args) = false → truthy (dict_get config "env") = true →
     run_env args config s = Ok (dict_get config "env", s) ∧
     (∀ e, run fuel args s = Raised e → ∀ msg, e ≠ ParserError msg) ∧
     ∀ agent env num_steps s',
       run_prepare args s = Ok ((agent, env, num_steps), s') →
       env = dict_get config "env" ∧
       agent_inits (drop (length (trace s)) (trace s'))
         = [(args_run args, dict_get config "env", config)]).
Proof.
  split; [split|].
  - intros [H|H]%run_Raised; [|done].
    apply run_prepare_Raise in H as [H|[(config & Hc & H)|(config & env & _ & _ & [H|H])]].
    + apply run_config_Raise in H as [(? & _)|[name ?]]; done.
    + apply run_env_Raise in H as (_ & ? & ?). eauto.
    + done.
    + apply py_int_Raise in H as [H|H]; done.
  - intros (config & Hc & E1 & E2). unfold run, run_prepare.
    unfold mbind at 1. unfold M_bind, bind. rewrite Hc.
    unfold mbind at 1. unfold M_bind, bind.
    assert (run_env args config s = Raise (ParserError env_required_msg)) as ->
      by (by apply run_env_Raise).
    done.
  - intros config Hc E1 E2.
    assert (run_env args config s = Ok (dict_get config "env", s)) as Henv.
    { unfold run_env. rewrite E1, E2. done. }
    split_and!; [done| |].
    + intros e [H|H]%run_Raised msg ->; [|done].
      apply run_prepare_Raise in H
        as [H|[(config' & Hc' & H)|(config' & env & _ & _ & [H|H])]].
      * apply run_config_Raise in H as [(? & _)|[name ?]]; done.
      * rewrite Hc in Hc'. simplify_eq. by rewrite Henv in H.
      * done.
      * apply py_int_Raise in H as [H|H]; done.
    + intros agent env n s' H.
      apply run_prepare_Ok in H as (config' & Hc' & Henv' & _ & Htr).
      rewrite Hc in Hc'. simplify_eq. rewrite Henv in Henv'. simplify_eq.
      split; [done|]. by rewrite Htr, drop_app_length.
Qed.

(** C2, amended: the configuration the agent is constructed with is
    [merge_dicts] of a file configuration without the worker-count keys and
    the [--config] mapping, where the file configuration is the
    [params.pkl] of the checkpoint directory when it exists, that of the
    parent directory only when the first does not exist, and empty when
    neither exists. *)
Theorem agent_config_sources args s agent env num_steps s' :
  run_prepare args s = Ok ((agent, env, num_steps), s') →
  ∃ file_config config,
    (if path_exists (world s) (own_params args)
     then pickle_load (world s) (own_params args) = Some file_config
     else if path_exists (world s) (parent_params args)
     then pickle_load (world s) (parent_params args) = Some file_config
     else file_config = ∅) ∧
    without_workers file_config !! "num_workers" = None ∧
    without_workers file_config !! "num_gpus_per_worker" = None ∧
    (∀ k, k ≠ "num_workers" → k ≠ "num_gpus_per_worker" →
          without_workers file_config !! k = file_config !! k) ∧
    merge_dicts (without_workers file_config) (args_config args) = Some config ∧
    agent_inits (drop (length (trace s)) (trace s')) = [(args_run args, env, config)].
Proof.
  intros H. apply run_prepare_Ok in H as (config & Hc & _ & _ & Htr).
  apply run_config_Ok in Hc as (_ & file_config & Hfile & Hmerge).
  exists file_config, config. split_and!; try done.
  - destruct (path_exists _ (own_params args)); [done|].
    destruct (path_exists _ (parent_params args)); [done|]. by destruct Hfile.
  - unfold without_workers. rewrite lookup_delete_ne by done. apply lookup_delete_eq.
  - unfold without_workers. apply lookup_delete_eq.
  - intros k H1 H2. unfold without_workers. by rewrite !lookup_delete_ne.
  - by rewrite Htr, drop_app_length.
Qed.


(** *** The mapping cache *)

(** Each visit of an agent with an observation calls the policy-mapping
    function, cached or not; the policy id used afterwards is the cached one
    when there is one. *)
Lemma agent_action_calls_mapping agent cx agent_id a_state mc si ad fn s acc' s' :
  a_state ≠ ONone →
  policy_agent_mapping cx = Some fn →
  agent_action agent cx agent_id a_state (mc, si, ad) s = Ok (acc', s') →
  ∃ rest,
    trace s' = trace s ++ EvPolicyMapping agent_id (fn agent_id (world s)).1 :: rest ∧
    acc'.1.1 !! agent_id = Some (default (fn agent_id (world s)).1 (mc !! agent_id)) ∧
    ∀ other, other ≠ agent_id → acc'.1.1 !! other = mc !! other.
Proof.
  intros Hne Hfn H.
  assert (visit_agent agent cx agent_id a_state (mc, si, ad) s = Ok (acc', s')) as H'
    by (by destruct a_state).
  clear H Hne. unfold visit_agent in H'. rewrite Hfn in H'.
  apply bind_Ok in H' as (fn' & s1 & Hfn' & H). apply lift_Ok in Hfn' as [Heq <-].
  injection Heq as <-.
  apply bind_Ok in H as (p & s2 & Hp & H). apply call_Ok in Hp as [-> ->].
  unfold setdefault in H.
  assert (∃ policy_id mc',
            (match mc !! agent_id with
             | Some v' => (v', mc)
             | None => ((fn agent_id (world s)).1,
                        <[agent_id := (fn agent_id (world s)).1]> mc)
             end) = (policy_id, mc') ∧
            mc' !! agent_id = Some (default (fn agent_id (world s)).1 (mc !! agent_id)) ∧
            ∀ other, other ≠ agent_id → mc' !! other = mc !! other)
    as (policy_id & mc' & Hsd & Hmc1 & Hmc2).
  { destruct (mc !! agent_id) as [v'|] eqn:E; eexists _, _; split; try done; simpl.
    split; [apply lookup_insert_eq|]. intros other Ho. by apply lookup_insert_ne. }
  rewrite Hsd in H.
  apply bind_Ok in H as (ul & s3 & Hul & H). apply lift_Ok in Hul as [_ <-].
  apply bind_Ok in H as ([a_action si'] & s4 & Hact & H).
  apply ret_Ok in H as [<- <-]. simpl.
  assert (∃ rest, trace s4 = (trace s ++ [EvPolicyMapping agent_id (fn agent_id (world s)).1])
                             ++ rest) as [rest Hrest].
  { destruct ul.
    - apply bind_Ok in Hact as (st & s5 & Hst & H). apply lift_Ok in Hst as [_ <-].
      apply bind_Ok in H as ([a ps] & s6 & Hc & H). apply call_Ok in Hc as [_ ->].
      apply bind_Ok in H as (si2 & s7 & Hs & H). apply lift_Ok in Hs as [_ <-].
      apply ret_Ok in H as [_ <-]. simpl. by eexists.
    - apply bind_Ok in Hact as (a & s5 & Hc & H). apply call_Ok in Hc as [_ ->].
      apply ret_Ok in H as [_ <-]. simpl. by eexists. }
  exists rest. rewrite Hrest, <-app_assoc. done.
Qed.


(** With a policy-mapping function that is a function of the agent id alone,
    every entry of the cache is that function's value at its agent id, before
    and after every iteration. *)
Lemma for_agents_cache agent cx f fn items mc si ad s mc' si' ad' s' :
  policy_agent_mapping cx = Some fn →
  (∀ agent_id w, fn agent_id w = (f agent_id, w)) →
  cache_consistent f mc →
  for_agents agent cx items (mc, si, ad) s = Ok ((mc', si', ad'), s') →
  cache_consistent f mc'.
Proof.
  intros Hfn Hpure. revert mc si ad s.
  induction items as [|[agent_id a_state] items IH]; intros mc si ad s Hmc H; simpl in H.
  - apply ret_Ok in H as [Heq _]. by simplify_eq.
  - apply bind_Ok in H as ([[mc1 si1] ad1] & s1 & H1 & H).
    eapply IH; [|done].
    assert (a_state = ONone ∨ a_state ≠ ONone) as [->|Hne]
      by (destruct a_state; eauto).
    { simpl in H1. apply ret_Ok in H1 as [Heq _]. by simplify_eq. }
    eapply agent_action_calls_mapping in H1 as (rest & _ & Hnew & Hother); [|done..].
    simpl in *. rewrite Hpure in Hnew. simpl in Hnew.
    intros id p Hp. destruct (decide (id = agent_id)) as [->|Hid].
    + rewrite Hnew in Hp. injection Hp as <-.
      destruct (mc !! agent_id) as [p0|] eqn:E; simpl; [by apply Hmc|done].
    + rewrite Hother in Hp by done. by apply Hmc.
Qed.

Lemma loop_body_cache agent cx out no_render f fn l s l' s' :
  policy_agent_mapping cx = Some fn →
  (∀ agent_id w, fn agent_id w = (f agent_id, w)) →
  cache_consistent f (l_mapping_cache l) →
  loop_body agent cx out no_render l s = Ok (l', s') →
  cache_consistent f (l_mapping_cache l').
Proof.
  intros Hfn Hpure Hmc H. apply loop_body_Ok in H
    as (action & s1 & ns & rew & dn & stat & w2 & flag & rt & rfe & tm & sts & Hch & _).
  unfold choose_action in Hch. destruct (multiagent cx).
  - destruct (l_state l) as [| |items]; try done.
    apply bind_Ok in Hch as ([[mc si] ad] & s2 & Hfor & Hret).
    apply ret_Ok in Hret as [Heq _]. injection Heq as _ <- _.
    by eapply for_agents_cache.
  - apply bind_Ok in Hch as (d & s2 & _ & Hch). destruct d.
    + apply bind_Ok in Hch as (st & s3 & _ & Hch).
      apply bind_Ok in Hch as ([a si] & s4 & _ & Hret).
      apply ret_Ok in Hret as [Heq _]. injection Heq as _ <- _. done.
    + apply bind_Ok in Hch as (a & s3 & _ & Hret).
      apply ret_Ok in Hret as [Heq _]. injection Heq as _ <- _. done.
Qed.

(** Over a whole multi-agent rollout: every done dict had the sentinel, it
    was true at most in the last step, and [done] ends as its last value. *)
Lemma sentinel_over_rollout fuel agent env_name num_steps out no_render s l s' :
  is_multiagent agent = true →
  rollout fuel agent env_name num_steps out no_render s = Finished (l, s') →
  ∃ evs, trace s' = trace s ++ evs ∧
    let rs := steps_of evs in
    (∀ i r, rs !! i = Some r →
       ∃ dm b, st_done r = DDict dm ∧ dm !! "__all__" = Some b ∧
               (b = true → S i = length rs)) ∧
    flag_after true rs (length rs) = Some (l_done l).
Proof.
  intros Hmulti H. apply rollout_observed in H
    as (cx & si & s0 & st0 & evs & _ & Hcx & Htr & _ & _ & _ & Hinv & _).
  rewrite Hmulti in Hcx. exists evs. split; [done|]. simpl.
  pose proof (inv_done _ _ _ _ _ _ _ Hinv) as Hdone. rewrite Hcx in Hdone.
  split; [|done].
  intros i r Hr. pose proof (lookup_lt_Some _ _ _ Hr) as Hi.
  assert (∃ flag, flag_after true (steps_of evs) (S i) = Some flag ∧
                  (S i < length (steps_of evs) → done_truthy flag = false))
    as (flag & Hflag & Hrun).
  { destruct (decide (S i < length (steps_of evs))) as [Hlt|Hge].
    - pose proof (inv_running _ _ _ _ _ _ _ Hinv (S i) Hlt) as (flag & Hf & Ht).
      rewrite Hcx in Hf. eauto.
    - assert (S i = length (steps_of evs)) as -> by lia. eexists. split; [done|]. lia. }
  simpl in Hflag. rewrite Hr in Hflag. simpl in Hflag. unfold done_flag in Hflag.
  destruct (st_done r) as [|dm]; [done|].
  destruct (dm !! "__all__") as [b|] eqn:Hall; [|done]. simpl in Hflag.
  injection Hflag as <-. exists dm, b. split_and!; try done.
  intros ->. destruct (decide (S i < length (steps_of evs))) as [Hlt|Hge]; [|lia].
  by apply Hrun in Hlt.
Qed.


(** *** A rollout returns *)

Lemma bind_eq {A B} (m : M A) (k : A → M B) s a s1 :
  m s = Ok (a, s1) → (m ≫= k) s = k a s1.
Proof. unfold mbind, M_bind, bind. by intros ->. Qed.

Lemma call_eq {A} (f : World → A * World) ev s :
  call f ev s = Ok ((f (world s)).1,
                    {| world := (f (world s)).2; trace := trace s ++ [ev (f (world s)).1] |}).
Proof. unfold call. by destruct (f (world s)). Qed.

Lemma visit_agent_total agent cx fn agent_id a_state mc d ad s :
  policy_agent_mapping cx = Some fn →
  (∀ agent_id w, is_Some (use_lstm cx !! (fn agent_id w).1)) →
  (∀ agent_id p, mc !! agent_id = Some p → is_Some (use_lstm cx !! p)) →
  (∀ p, is_Some (use_lstm cx !! p) → is_Some (d !! p)) →
  ∃ mc' d' ad' s',
    visit_agent agent cx agent_id a_state (mc, Some (SIDict d), ad) s
      = Ok ((mc', Some (SIDict d'), ad'), s') ∧
    (∀ agent_id p, mc' !! agent_id = Some p → is_Some (use_lstm cx !! p)) ∧
    (∀ p, is_Some (use_lstm cx !! p) → is_Some (d' !! p)).
Proof.
  intros Hfn Hknown Hmc Hd. unfold visit_agent. rewrite Hfn.
  unfold mbind, M_bind, bind, lift, call, mret, M_ret, ret. simpl.
  pose proof (Hknown agent_id (world s)) as Hp.
  destruct (fn agent_id (world s)) as [p w1]. simpl in *.
  assert (∃ policy_id mc',
            setdefault mc agent_id p = (policy_id, mc') ∧
            is_Some (use_lstm cx !! policy_id) ∧
            ∀ agent_id p, mc' !! agent_id = Some p → is_Some (use_lstm cx !! p))
    as (policy_id & mc' & -> & [ul Hul] & Hmc').
  { unfold setdefault. destruct (mc !! agent_id) as [p0|] eqn:E; eexists _, _.
    - split; [done|]. split; [by eapply Hmc|done].
    - split; [done|]. split; [done|].
      intros id q. rewrite lookup_insert. case_decide; [|by apply Hmc].
      by intros [= <-]. }
  unfold subscript. rewrite Hul. destruct ul.
  - destruct (Hd policy_id) as [st Hst]; [by eexists|].
    unfold state_init_get, subscript. rewrite Hst.
    destruct (compute_action_rnn _ _ _ _ _) as [[a ps] w']. simpl.
    eexists _, _, _, _. split; [reflexivity|]. split; [done|].
    intros q Hq. rewrite lookup_insert. case_decide; [by eexists|by apply Hd].
  - destruct (compute_action _ _ _ _) as [a w']. simpl.
    eexists _, _, _, _. split; [reflexivity|]. done.
Qed.

Lemma for_agents_total agent cx fn items mc d ad s :
  policy_agent_mapping cx = Some fn →
  (∀ agent_id w, is_Some (use_lstm cx !! (fn agent_id w).1)) →
  (∀ agent_id p, mc !! agent_id = Some p → is_Some (use_lstm cx !! p)) →
  (∀ p, is_Some (use_lstm cx !! p) → is_Some (d !! p)) →
  ∃ mc' d' ad' s',
    for_agents agent cx items (mc, Some (SIDict d), ad) s
      = Ok ((mc', Some (SIDict d'), ad'), s') ∧
    (∀ agent_id p, mc' !! agent_id = Some p → is_Some (use_lstm cx !! p)) ∧
    (∀ p, is_Some (use_lstm cx !! p) → is_Some (d' !! p)).
Proof.
  intros Hfn Hknown. revert mc d ad s.
  induction items as [|[agent_id a_state] items IH]; intros mc d ad s Hmc Hd; simpl.
  - eexists _, _, _, _. split; [reflexivity|]. done.
  - assert (∃ mc1 d1 ad1 s1,
              agent_action agent cx agent_id a_state (mc, Some (SIDict d), ad) s
                = Ok ((mc1, Some (SIDict d1), ad1), s1) ∧
              (∀ agent_id p, mc1 !! agent_id = Some p → is_Some (use_lstm cx !! p)) ∧
              (∀ p, is_Some (use_lstm cx !! p) → is_Some (d1 !! p)))
      as (mc1 & d1 & ad1 & s1 & H1 & Hmc1 & Hd1).
    { unfold agent_action. destruct a_state; try by eapply visit_agent_total.
      eexists _, _, _, _. split; [reflexivity|]. done. }
    erewrite bind_eq by exact H1. by apply IH.
Qed.

Lemma choose_action_total agent cx out l s :
  policies_known cx → locals_ready cx out l →
  ∃ action mc' si' s1,
    choose_action agent cx l s = Ok ((action, mc', si'), s1) ∧
    if multiagent cx then
      (∀ agent_id p, mc' !! agent_id = Some p → is_Some (use_lstm cx !! p)) ∧
      (∃ d, si' = Some (SIDict d) ∧ ∀ p, is_Some (use_lstm cx !! p) → is_Some (d !! p))
    else is_Some si' ∨ use_lstm cx !! "default" = Some false.
Proof.
  unfold policies_known, locals_ready, choose_action.
  intros Hpol [_ Hl]. destruct (multiagent cx).
  - destruct Hl as ([items Hst] & Hmc & d & Hsi & Hd).
    destruct Hpol as (fn & Hfn & Hknown). rewrite Hst, Hsi.
    destruct (for_agents_total agent cx fn items (l_mapping_cache l) d [] s)
      as (mc' & d' & ad' & s1 & Hfor & Hmc' & Hd'); try done.
    unfold mbind, M_bind, bind. rewrite Hfor. simpl.
    eexists _, _, _, _. split; [reflexivity|]. split; [done|]. eauto.
  - destruct Hpol as [ul Hul].
    unfold mbind, M_bind, bind, lift, subscript, call. rewrite Hul. destruct ul.
    + destruct Hl as [[st Hst]|Hfalse]; [|congruence]. rewrite Hst.
      destruct (compute_action_rnn _ _ _ _ _) as [[a si] w']. simpl.
      eexists _, _, _, _. split; [reflexivity|]. left. by eexists.
    + destruct (compute_action _ _ _ _) as [a w']. simpl.
      eexists _, _, _, _. split; [reflexivity|]. by right.
Qed.

Lemma account_total cx l a w :
  env_shaped cx →
  ∃ next_state reward done stat w' r,
    env_step (env cx) a w = ((next_state, reward, done, stat), w') ∧
    account cx l reward done stat = Ok r ∧
    (multiagent cx = true → ∃ d, next_state = ODict d).
Proof.
  unfold env_shaped, account. intros Henv. destruct (multiagent cx).
  - destruct Henv as [_ Hstep].
    destruct (Hstep a w) as (d & items & dm & b & stat & w' & E & Hall).
    eexists _, _, _, _, _, _. split; [exact E|].
    unfold subscript. rewrite Hall. simpl. split; [reflexivity|]. eauto.
  - destruct (Henv a w) as (ns & r & dn & stat & w' & E).
    eexists _, _, _, _, _, _. split; [exact E|]. simpl. split; [reflexivity|]. done.
Qed.

Lemma loop_body_total agent cx out no_render l s :
  env_shaped cx → policies_known cx → locals_ready cx out l →
  ∃ l' s', loop_body agent cx out no_render l s = Ok (l', s') ∧ locals_ready cx out l'.
Proof.
  intros Henv Hpol Hl.
  destruct (choose_action_total agent cx out l s Hpol Hl)
    as (action & mc' & si' & s1 & Hch & Hinv).
  destruct (account_total cx l (sent_action agent cx action) (world s1) Henv)
    as (ns & rew & dn & stat & w2 & [[[[flag rt] rfe] tm] sts] & Hstep & Hacc & Hns).
  destruct Hl as [Hro Hl].
  assert (∃ ro, match out with
                | Some _ =>
                    match l_rollout l with
                    | Some rollout => Ok (Some (rollout ++ [(l_state l, action, ns, rew, flag)]))
                    | None => Raise (NameError "rollout")
                    end
                | None => Ok (l_rollout l)
                end = Ok ro ∧ (is_Some out → is_Some ro)) as (ro & Hro' & Hro'').
  { destruct out as [file|].
    - destruct Hro as [ts Hts]; [done|]. rewrite Hts. eexists. split; [done|]. by eexists.
    - eexists. split; [done|]. by intros []. }
  unfold sent_action in Hstep. unfold loop_body, mbind, M_bind, bind. rewrite Hch.
  unfold call, call_, lift.
  destruct (config_clip_actions agent), no_render; simpl; rewrite Hstep; simpl;
    rewrite Hacc; simpl; rewrite Hro'; simpl.
  all: eexists _, _; split; [reflexivity|]; simpl.
  all: split; [done|]; destruct (multiagent cx); [|done].
  all: destruct Hinv as [Hmc Hsi]; split_and!; try done; by apply Hns.
Qed.

Lemma while_loop_returns n fuel agent cx out no_render l s :
  n ≠ 0%Z → (n - l_steps l ≤ Z.of_nat fuel)%Z →
  env_shaped cx → policies_known cx → locals_ready cx out l →
  ∃ l' s',
    while_loop fuel agent cx (Some n) out no_render l s = Finished (l', s') ∧
    locals_ready cx out l'.
Proof.
  intros Hn Hfuel Henv Hpol. revert l s Hfuel.
  induction fuel as [|fuel IH]; intros l s Hfuel Hl; simpl;
    destruct (loop_cond (Some n) l) eqn:Hc; eauto.
  - apply loop_cond_bound in Hc; [lia|done].
  - destruct (loop_body_total agent cx out no_render l s Henv Hpol Hl)
      as (l1 & s1 & Hb & Hl1).
    rewrite Hb. apply IH; [|done]. apply loop_body_steps in Hb.
    apply loop_cond_bound in Hc; [lia|done].
Qed.

Lemma rollout_init_ready cx out state_init s0 l0 s1 :
  env_shaped cx →
  rollout_init cx out state_init s0 = Ok (l0, s1) →
  (if multiagent cx then
     ∃ d, state_init = Some (SIDict d) ∧ ∀ p, is_Some (use_lstm cx !! p) → is_Some (d !! p)
   else is_Some state_init ∨ use_lstm cx !! "default" = Some false) →
  l_steps l0 = 0%Z ∧ locals_ready cx out l0.
Proof.
  unfold rollout_init, env_shaped, locals_ready. intros Henv H Hsi.
  apply bind_Ok in H as (st0 & s2 & Hc & H). apply call_Ok in Hc as [-> ->].
  apply ret_Ok in H as [<- <-]. simpl. split; [done|]. split.
  - intros [file ->]. by eexists.
  - destruct (multiagent cx); [|done]. destruct Henv as [Hreset _].
    split_and!; [apply Hreset|done|done].
Qed.

(** With an environment of the expected shapes and the policies the loop
    asks for, a rollout with [num_steps > 0] returns. *)
Lemma rollout_returns fuel n agent env_name out no_render s cx state_init s0 :
  (0 < n)%Z → Z.to_nat n ≤ fuel →
  rollout_setup agent env_name s = Ok ((cx, state_init), s0) →
  env_shaped cx → policies_known cx →
  ∃ l s', rollout fuel agent env_name (Some n) out no_render s = Finished (l, s').
Proof.
  intros Hn Hfuel Hsetup Henv Hpol. unfold rollout.
  unfold mbind at 1. unfold M_bind, bind. rewrite Hsetup.
  assert (if multiagent cx then
            ∃ d, state_init = Some (SIDict d) ∧
                 ∀ p, is_Some (use_lstm cx !! p) → is_Some (d !! p)
          else is_Some state_init ∨ use_lstm cx !! "default" = Some false) as Hsi.
  { unfold rollout_setup in Hsetup. destruct (local_evaluator agent) as [ev|].
    - apply ret_Ok in Hsetup as [Heq _]. injection Heq as <- <-. simpl.
      destruct (le_multiagent ev); [|left; by eexists].
      eexists. split; [done|]. intros p [b Hb].
      rewrite lookup_fmap in Hb. by destruct (_ !! p).
    - apply bind_Ok in Hsetup as (e & s1 & _ & Hret).
      apply ret_Ok in Hret as [Heq _]. injection Heq as <- <-. simpl. by right. }
  destruct (rollout_init cx out state_init s0) as [[l0 s1]|e] eqn:Hinit.
  2: { unfold rollout_init in Hinit.
       apply bind_Raise in Hinit as [H|(? & ? & _ & H)]; [by apply call_not_Raise in H|done]. }
  simpl. unfold mbind, M_bind, bind. rewrite Hinit. simpl.
  destruct (rollout_init_ready _ _ _ _ _ _ Henv Hinit Hsi) as [Hsteps Hready].
  destruct (while_loop_returns n fuel agent cx out no_render l0 s1)
    as (l1 & s2 & Hloop & [Hro _]); try done; [lia..|].
  rewrite Hloop.
  destruct (rollout_end cx out l1 s2) as [[[] s3]|e] eqn:Hend; [by eexists _, _|].
  exfalso. unfold rollout_end in Hend.
  repeat (apply bind_Raise in Hend as [H|(? & ? & _ & Hend)];
          [first [by apply call_not_Raise in H | discriminate H]|]).
  destruct out as [file|]; [|done].
  destruct Hro as [ts Hts]; [done|]. rewrite Hts in Hend.
  apply bind_Raise in Hend as [H|(? & ? & _ & Hend)]; done.
Qed.

End Properties.

(** ** Behaviour of the loop and of [run] *)

Section Behaviour.
Context {D : Domain} {L : Library}.

Implicit Types (s : Sys) (l : Locals) (cx : Setup) (agent : Agent).

(** *** Invariants of the loop, over a whole rollout *)

(** A property of the local variables and the loop's events that holds at the
    loop's entry and is kept by every iteration holds when [rollout] returns. *)
Lemma rollout_invariant (P : Setup → obs_t → Locals → list event → Prop)
    fuel agent env_name num_steps out no_render s l s' :
  rollout fuel agent env_name num_steps out no_render s = Finished (l, s') →
  (∀ cx si s0 l0 s1 st0,
     rollout_setup agent env_name s = Ok ((cx, si), s0) →
     rollout_init cx out si s0 = Ok (l0, s1) →
     trace s1 = trace s0 ++ [EvReset st0] →
     P cx st0 l0 []) →
  (∀ cx si s0 st0 la sa lb sb evs evs',
     rollout_setup agent env_name s = Ok ((cx, si), s0) →
     loop_inv agent cx num_steps out st0 la (steps_of evs) →
     P cx st0 la evs →
     loop_cond num_steps la = true →
     loop_body agent cx out no_render la sa = Ok (lb, sb) →
     trace sb = trace sa ++ evs' →
     P cx st0 lb (evs ++ evs')) →
  ∃ cx si s0 st0 evs e,
    rollout_setup agent env_name s = Ok ((cx, si), s0) ∧
    multiagent cx = is_multiagent agent ∧
    trace s' = trace s ++ setup_events agent env_name
                       ++ EvReset st0 :: evs ++ end_events out l e ∧
    Forall loop_event evs ∧
    loop_inv agent cx num_steps out st0 l (steps_of evs) ∧
    loop_cond num_steps l = false ∧
    P cx st0 l evs.
Proof.
  unfold rollout. intros H Hinit0 Hstep.
  match type of H with
  | match ?x with _ => _ end = _ => destruct x as [[[cx l0] s1]|] eqn:Hpre; [|done]
  end.
  apply bind_Ok in Hpre as ([cx' si] & s0 & Hsetup & Hpre).
  apply bind_Ok in Hpre as (l0' & s1' & Hinit & Hret).
  apply ret_Ok in Hret as [Heq ->]. injection Heq as -> ->.
  pose proof Hsetup as Hsetup'.
  apply rollout_setup_Ok in Hsetup as [Hmulti Htr0].
  pose proof Hinit as Hinit'.
  apply (rollout_init_Ok agent cx num_steps) in Hinit as (st0 & Htr1 & Hinv0).
  destruct (while_loop _ _ _ _ _ _ _ _) as [[l2 s2]| |] eqn:Hloop; try done.
  destruct (rollout_end cx out l2 s2) as [[[] s3]|] eqn:Hend; [|done]. simplify_eq.
  apply rollout_end_Ok in Hend as (e & Htr3).
  apply (while_loop_Finished
           (λ l s, ∃ evs, trace s = trace s1 ++ evs ∧ Forall loop_event evs ∧
                          loop_inv agent cx num_steps out st0 l (steps_of evs) ∧
                          P cx st0 l evs)) in Hloop.
  - destruct Hloop as [(evs & Htr2 & Hevs & Hinv & HP) Hcond].
    exists cx, si, s0, st0, evs, e. split_and!; try done.
    rewrite Htr3, Htr2, Htr1, Htr0. by rewrite <-!app_assoc.
  - exists []. rewrite app_nil_r. split_and!; try done. by eapply Hinit0.
  - intros la sa lb sb (evs & Htr & Hevs & Hinv & HP) Hc Hb.
    pose proof Hb as Hb'.
    eapply loop_inv_body in Hb as (evs' & r & Htr' & Hevs' & Hso & Hinv'); [|done..].
    exists (evs ++ evs'). split_and!.
    + by rewrite Htr', Htr, <-app_assoc.
    + by apply Forall_app.
    + by rewrite steps_of_app, Hso.
    + by eapply Hstep.
Qed.

(** One iteration, with its events exactly. *)
Lemma loop_body_trace agent cx out no_render l s l' s' :
  loop_body agent cx out no_render l s = Ok (l', s') →
  ∃ action s1 evs0 next_state reward done stat w2 flag reward_for_each time statistics,
    choose_action agent cx l s
      = Ok ((action, l_mapping_cache l', l_state_init l'), s1) ∧
    trace s1 = trace s ++ evs0 ∧ Forall choice_event evs0 ∧
    env_step (env cx) (sent_action agent cx action) (world s1)
      = ((next_state, reward, done, stat), w2) ∧
    account cx l reward done stat
      = Ok (flag, l_reward_total l', reward_for_each, time, statistics) ∧
    l_state l' = next_state ∧
    trace s' = trace s ++ evs0
               ++ EvStep (sent_action agent cx action) (next_state, reward, done, stat)
               :: (if no_render then [] else [EvRender]).
Proof.
  intros H. apply loop_body_Ok in H
    as (action & s1 & ns & rew & dn & stat & w2 & flag & rt & rfe & tm & sts
        & Hch & Hstep & Hacc & Hw & Htr & _ & _ & _ & Hst & _ & Hrt & _).
  pose proof Hch as (evs0 & Hevs0 & Hchoice)%choose_action_trace.
  exists action, s1, evs0, ns, rew, dn, stat, w2, flag, rfe, tm, sts.
  rewrite Hrt. split_and!; try done. by rewrite Htr, Hevs0, <-app_assoc.
Qed.

Lemma steps_and_renders_app (evs1 evs2 : list event) :
  steps_and_renders (evs1 ++ evs2) = steps_and_renders evs1 ++ steps_and_renders evs2.
Proof. apply omap_app. Qed.

Lemma prints_of_app (evs1 evs2 : list event) :
  prints_of (evs1 ++ evs2) = prints_of evs1 ++ prints_of evs2.
Proof. apply omap_app. Qed.

Lemma choice_events_quiet (evs : list event) :
  Forall choice_event evs →
  steps_and_renders evs = [] ∧ prints_of evs = [] ∧ gym_makes evs = [].
Proof.
  induction 1 as [|e evs He _ IH]; [done|].
  destruct e; try done; simpl; apply IH.
Qed.

Lemma loop_events_quiet (evs : list event) :
  Forall loop_event evs →
  prints_of evs = [] ∧ gym_makes evs = [] ∧ agent_inits evs = [].
Proof.
  induction 1 as [|e evs He _ IH]; [done|].
  destruct e; try done; simpl; apply IH.
Qed.

(** *** Rendering *)

(** X1: a rollout that returns calls [env.render] exactly once after every
    [env.step], before the next one, unless [no_render] is set; with
    [no_render] it never renders. *)
Theorem render_follows_each_step fuel agent env_name num_steps out no_render s l s' :
  rollout fuel agent env_name num_steps out no_render s = Finished (l, s') →
  ∃ evs, trace s' = trace s ++ evs ∧
    steps_and_renders evs
      = steps_of evs ≫= λ _, false :: (if no_render then [] else [true]).
Proof.
  intros H.
  apply (rollout_invariant
           (λ _ _ _ evs, steps_and_renders evs
              = steps_of evs ≫= λ _, false :: (if no_render then [] else [true]))) in H.
  - destruct H as (cx & si & s0 & st0 & evs & e & _ & _ & Htr & _ & _ & _ & HP).
    eexists. split; [exact Htr|].
    destruct (setup_events_quiet agent env_name) as (S1 & _).
    destruct (end_events_observed out l e) as (E1 & _).
    rewrite steps_and_renders_app, steps_of_app, S1. simpl.
    rewrite steps_and_renders_app, steps_of_app, E1, app_nil_r, HP.
    assert (steps_and_renders (setup_events agent env_name) = []) as ->
      by (unfold setup_events; by destruct (local_evaluator agent)).
    assert (steps_and_renders (end_events out l e) = []) as ->
      by (unfold end_events; by destruct out, (l_rollout l)).
    by rewrite app_nil_r.
  - done.
  - intros cx si s0 st0 la sa lb sb evs evs' _ _ HP _ Hb Htr.
    apply loop_body_trace in Hb
      as (action & s1 & evs0 & ns & rew & dn & stat & w2 & flag & rfe & tm & sts
          & _ & _ & Hch & _ & _ & _ & Htr').
    rewrite Htr in Htr'. apply app_inv_head in Htr' as ->.
    rewrite !steps_and_renders_app, !steps_of_app, HP, bind_app.
    destruct (choice_events_quiet evs0 Hch) as (-> & _).
    rewrite (steps_of_choice evs0) by done. simpl. by destruct no_render.
Qed.

(** *** The rewards printed at the end *)

Lemma episode_reward_snoc multi rs r total t :
  episode_reward multi rs = Some total →
  step_total multi r = Some t →
  episode_reward multi (rs ++ [r]) = Some (r_add total t).
Proof.
  unfold episode_reward. intros Hrs Ht. rewrite foldl_app, Hrs. simpl. by rewrite Ht.
Qed.

(** X2: a rollout that returns prints, after its last step and in this
    order, the end statistics of the environment, [reward_total] and
    [reward_for_each]. [reward_total] is the [float] 0.0 plus, step by step,
    the reward of the step (single-agent) or the sum of the rewards of all
    agents in the step (multi-agent); [reward_for_each] holds every agent's
    own sum in a multi-agent rollout and is empty otherwise. *)
Theorem episode_summary_printed fuel agent env_name num_steps out no_render s l s' :
  rollout fuel agent env_name num_steps out no_render s = Finished (l, s') →
  ∃ before after e,
    trace s' = trace s ++ before ++ after ∧
    prints_of before = [] ∧ steps_of after = [] ∧
    prints_of after = [ PrintEndStatistics e;
                        PrintEpisodeReward (l_reward_total l);
                        PrintRewardForEach (l_reward_for_each l) ] ∧
    episode_reward (is_multiagent agent) (steps_of before) = Some (l_reward_total l) ∧
    if is_multiagent agent
    then ∀ k, l_reward_for_each l !! k = cumulative_reward k (steps_of before)
    else l_reward_for_each l = ∅.
Proof.
  intros H.
  apply (rollout_invariant
           (λ cx _ l evs,
              episode_reward (multiagent cx) (steps_of evs) = Some (l_reward_total l))) in H.
  - destruct H as (cx & si & s0 & st0 & evs & e & _ & Hmulti & Htr & Hevs & Hinv & _ & HP).
    exists (setup_events agent env_name ++ EvReset st0 :: evs), (end_events out l e), e.
    destruct (setup_events_quiet agent env_name) as (S1 & _).
    destruct (end_events_observed out l e) as (E1 & _).
    destruct (loop_events_quiet evs Hevs) as (P1 & _).
    assert (steps_of (setup_events agent env_name ++ EvReset st0 :: evs) = steps_of evs)
      as Hrs by (by rewrite steps_of_app, S1).
    rewrite Hrs, <-Hmulti. split_and!; try done.
    + by rewrite Htr, <-app_assoc.
    + rewrite prints_of_app. simpl. rewrite P1.
      unfold setup_events. by destruct (local_evaluator agent).
    + unfold end_events. by destruct out, (l_rollout l).
    + pose proof (inv_stats _ _ _ _ _ _ _ Hinv) as Hstats.
      destruct (multiagent cx); [by destruct Hstats as (_ & _ & ? & _)|].
      by destruct Hstats as (_ & ? & _).
  - intros cx si s0 l0 s1 st0 _ Hinit _. unfold rollout_init in Hinit.
    apply bind_Ok in Hinit as (st & s2 & _ & Hret). by apply ret_Ok in Hret as [<- _].
  - intros cx si s0 st0 la sa lb sb evs evs' _ _ HP _ Hb Htr.
    apply loop_body_trace in Hb
      as (action & s1 & evs0 & ns & rew & dn & stat & w2 & flag & rfe & tm & sts
          & _ & _ & Hch & _ & Hacc & _ & Htr').
    rewrite Htr in Htr'. apply app_inv_head in Htr' as ->.
    rewrite !steps_of_app, (steps_of_choice evs0) by done. simpl.
    assert (steps_of (if no_render then [] else [EvRender]) = []) as ->
      by (by destruct no_render).
    unfold step_total, st_reward. destruct (multiagent cx) eqn:Hm.
    + apply account_multi in Hacc as (dm & b & items & _ & _ & _ & -> & -> & _); [|done].
      by apply episode_reward_snoc.
    + apply account_single in Hacc as (_ & _ & _ & _ & x & -> & ->); [|done].
      by apply episode_reward_snoc.
Qed.



(** *** The environment *)

Lemma gym_makes_app (evs1 evs2 : list event) :
  gym_makes (evs1 ++ evs2) = gym_makes evs1 ++ gym_makes evs2.
Proof. apply omap_app. Qed.

(** X3: a rollout that returns uses the environment of the agent's local
    evaluator when there is one, and then never calls [gym.make]: [env_name]
    is not used. Without a local evaluator it calls [gym.make(env_name)]
    exactly once. Either way [env.reset] is called exactly once, after that
    and before every [env.step]. *)
Theorem environment_made_and_reset_once
    fuel agent env_name num_steps out no_render s l s' :
  rollout fuel agent env_name num_steps out no_render s = Finished (l, s') →
  ∃ before st0 after,
    trace s' = trace s ++ before ++ EvReset st0 :: after ∧
    gym_makes before = match local_evaluator agent with
                       | Some _ => []
                       | None => [env_name]
                       end ∧
    steps_of before = [] ∧ resets_of before = [] ∧
    gym_makes after = [] ∧ resets_of after = [].
Proof.
  intros H. apply rollout_Finished in H
    as (cx & si & s0 & st0 & evs & e & _ & _ & Htr & Hevs & _).
  exists (setup_events agent env_name), st0, (evs ++ end_events out l e).
  destruct (setup_events_quiet agent env_name) as (S1 & _ & _ & S4).
  destruct (end_events_observed out l e) as (_ & E2 & _).
  destruct (loop_events_quiet evs Hevs) as (_ & G & _).
  split_and!; try done.
  - unfold setup_events. by destruct (local_evaluator agent).
  - rewrite gym_makes_app, G. unfold end_events. by destruct out, (l_rollout l).
  - by rewrite resets_of_app, resets_of_loop, E2.
Qed.

(** *** Bounds *)



(** *** [run] as a whole *)

(** X6: a [run] that returns has called [ray.init], built one agent of the
    class [args.run] with the resolved environment name and the merged
    configuration, restored it from [args.checkpoint], in this order, and
    then run [rollout] on it with [int(args.steps)], [args.out] and
    [args.no_render]: the statistics are written exactly once, and the
    trajectory exactly when [--out] is given. *)
Theorem run_effects fuel args s l s' :
  run fuel args s = Finished (l, s') →
  ∃ config env num_steps evs,
    run_config args s = Ok (config, s) ∧
    env = (if truthy (args_env args) then args_env args else dict_get config "env") ∧
    truthy env = true ∧
    py_int (args_steps args) = Ok num_steps ∧
    (num_steps ≠ 0%Z → (l_steps l ≤ Z.max 0 num_steps)%Z) ∧
    trace s' = trace s ++ [ EvRayInit; EvAgentInit (args_run args) env config;
                            EvRestore (args_checkpoint args) ] ++ evs ∧
    agent_inits evs = [] ∧
    json_dumps evs = [(statistics_file, l_statistics l)] ∧
    match args_out args with
    | Some file => ∃ ts, l_rollout l = Some ts ∧ pickle_dumps evs = [(file, ts)]
    | None => pickle_dumps evs = []
    end.
Proof.
  unfold run. intros H.
  destruct (run_prepare args s) as [[[[agent env] n] s1]|] eqn:Hp; [|done].
  apply run_prepare_Ok in Hp as (config & Hc & Henv & Hint & Htr1).
  apply run_env_Ok in Henv as (_ & Henv & Htruthy).
  apply rollout_Finished in H
    as (cx & si & s0 & st0 & evs & e & _ & _ & Htr & Hevs & Hinv & _).
  destruct (setup_events_quiet agent env) as (S1 & S2 & S3 & _).
  destruct (end_events_observed (args_out args) l e) as (E1 & _ & E3 & E4).
  destruct (loop_events_quiet evs Hevs) as (_ & _ & A).
  exists config, env, n,
    (setup_events agent env ++ EvReset st0 :: evs ++ end_events (args_out args) l e).
  split_and!; try done.
  - rewrite Henv. destruct (truthy (args_env args)) eqn:E; [done|]. by apply Htruthy.
  - intros Hn0. pose proof (inv_steps _ _ _ _ _ _ _ Hinv) as Hs.
    destruct (decide (length (steps_of evs) = 0)) as [E|E]; [rewrite Hs, E; lia|].
    pose proof (inv_bound _ _ _ _ _ _ _ Hinv (length (steps_of evs) - 1)) as Hb.
    unfold or_int in Hb. destruct (n =? 0)%Z eqn:E0; lia.
  - rewrite Htr, Htr1. by rewrite <-!app_assoc.
  - rewrite agent_inits_app. simpl. rewrite agent_inits_app, A.
    unfold setup_events, end_events.
    by destruct (local_evaluator agent), (args_out args), (l_rollout l).
  - rewrite json_dumps_app, S2. simpl. by rewrite json_dumps_app, json_dumps_loop, E3.
  - assert (pickle_dumps (setup_events agent env ++ EvReset st0 :: evs
                          ++ end_events (args_out args) l e)
            = match args_out args, l_rollout l with
              | Some file, Some ts => [(file, ts)]
              | _, _ => []
              end) as ->.
    { rewrite pickle_dumps_app, S3. simpl.
      by rewrite pickle_dumps_app, pickle_dumps_loop, E4. }
    pose proof (inv_rollout _ _ _ _ _ _ _ Hinv) as Hro.
    destruct (args_out args) as [file|]; [|done].
    destruct Hro as (ts & Hts & _). exists ts. by rewrite Hts.
Qed.


(** *** The agents of a multi-agent step *)

Lemma mapped_ids_app (evs1 evs2 : list event) :
  mapped_ids (evs1 ++ evs2) = mapped_ids evs1 ++ mapped_ids evs2.
Proof. apply omap_app. Qed.

Lemma computes_of_app (evs1 evs2 : list event) :
  computes_of (evs1 ++ evs2) = computes_of evs1 ++ computes_of evs2.
Proof. apply omap_app. Qed.

Lemma alist_set_fresh {V} k (v : V) (ad : list (string * V)) :
  k ∉ ad.*1 → alist_set k v ad = ad ++ [(k, v)].
Proof.
  induction ad as [|[k' v'] ad IH]; [done|]. simpl. intros Hk.
  apply not_elem_of_cons in Hk as [Hne Hk]. rewrite bool_decide_eq_false_2 by done.
  by rewrite IH.
Qed.

(** A visit, in full: the mapping function is called, the policy id is the
    cached one if there is one, and the action is put under the agent id. *)
Lemma visit_agent_Ok agent cx agent_id a_state mc si ad s mc' si' ad' s' :
  visit_agent agent cx agent_id a_state (mc, si, ad) s = Ok ((mc', si', ad'), s') →
  ∃ fn p a,
    policy_agent_mapping cx = Some fn ∧
    p = default (fn agent_id (world s)).1 (mc !! agent_id) ∧
    mc' = match mc !! agent_id with
          | Some _ => mc
          | None => <[agent_id := (fn agent_id (world s)).1]> mc
          end ∧
    is_Some (use_lstm cx !! p) ∧
    trace s' = trace s ++ [ EvPolicyMapping agent_id (fn agent_id (world s)).1;
                            EvComputeAction a_state (Some p) a ] ∧
    ad' = alist_set agent_id a ad.
Proof.
  unfold visit_agent. intros H.
  apply bind_Ok in H as (fn & s1 & Hfn & H). apply lift_Ok in Hfn as [Hfn <-].
  destruct (policy_agent_mapping cx) as [fn'|]; [|done]. injection Hfn as ->.
  apply bind_Ok in H as (p_new & s2 & Hp & H). apply call_Ok in Hp as [-> ->].
  unfold setdefault in H.
  assert (∃ p mc1,
            (match mc !! agent_id with
             | Some v' => (v', mc)
             | None => ((fn agent_id (world s)).1,
                        <[agent_id := (fn agent_id (world s)).1]> mc)
             end) = (p, mc1) ∧
            p = default (fn agent_id (world s)).1 (mc !! agent_id) ∧
            mc1 = match mc !! agent_id with
                  | Some _ => mc
                  | None => <[agent_id := (fn agent_id (world s)).1]> mc
                  end) as (p & mc1 & Hsd & Hp & Hmc1).
  { destruct (mc !! agent_id); by eexists _, _. }
  rewrite Hsd in H.
  apply bind_Ok in H as (ul & s3 & Hul & H). apply lift_Ok in Hul as [Hul <-].
  apply bind_Ok in H as ([a si1] & s4 & Hact & H).
  apply ret_Ok in H as [Heq <-]. injection Heq as <- <- <-.
  assert (is_Some (use_lstm cx !! p)) as Hknown.
  { unfold subscript in Hul. destruct (use_lstm cx !! p); [by eexists|done]. }
  exists fn, p, a. split_and!; try done.
  destruct ul.
  - apply bind_Ok in Hact as (st & s5 & Hst & H). apply lift_Ok in Hst as [_ <-].
    apply bind_Ok in H as ([a' ps] & s6 & Hc & H). apply call_Ok in Hc as [Ha ->].
    apply bind_Ok in H as (si2 & s7 & Hs & H). apply lift_Ok in Hs as [_ <-].
    apply ret_Ok in H as [Heq <-]. injection Heq as <- _. simpl in *.
    rewrite <-Ha. simpl. by rewrite <-app_assoc.
  - apply bind_Ok in Hact as (a' & s5 & Hc & H). apply call_Ok in Hc as [Ha ->].
    apply ret_Ok in H as [Heq <-]. injection Heq as <- _. simpl in *.
    rewrite <-Ha. by rewrite <-app_assoc.
Qed.

Lemma for_agents_grows agent cx items mc si ad s mc' si' ad' s' :
  for_agents agent cx items (mc, si, ad) s = Ok ((mc', si', ad'), s') → mc ⊆ mc'.
Proof.
  revert mc si ad s. induction items as [|[k o] items IH]; intros mc si ad s H; simpl in H.
  - apply ret_Ok in H as [Heq _]. by injection Heq as <- _ _.
  - apply bind_Ok in H as ([[mc1 si1] ad1] & s1 & H1 & H).
    apply IH in H. etrans; [|done].
    assert (o = ONone ∨ o ≠ ONone) as [->|Hne] by (destruct o; eauto).
    + simpl in H1. apply ret_Ok in H1 as [Heq _]. by injection Heq as <- _ _.
    + assert (visit_agent agent cx k o (mc, si, ad) s = Ok ((mc1, si1, ad1), s1))
        as Hv by (by destruct o).
      apply visit_agent_Ok in Hv as (fn & p & a & _ & _ & -> & _).
      destruct (mc !! k) eqn:E; [done|]. by apply insert_subseteq.
Qed.

Lemma for_agents_Ok agent cx items mc si ad s mc' si' ad' s' :
  NoDup items.*1 →
  (∀ k, k ∈ items.*1 → k ∉ ad.*1) →
  for_agents agent cx items (mc, si, ad) s = Ok ((mc', si', ad'), s') →
  ∃ evs,
    trace s' = trace s ++ evs ∧
    mapped_ids evs = (active_agents items).*1 ∧
    (computes_of evs).*1.*1 = (active_agents items).*2 ∧
    (computes_of evs).*1.*2 = (λ k, mc' !! k) <$> (active_agents items).*1 ∧
    ad' = ad ++ zip (active_agents items).*1 (computes_of evs).*2 ∧
    mc ⊆ mc'.
Proof.
  revert mc si ad s. induction items as [|[k o] items IH]; intros mc si ad s Hnd Hfresh H;
    simpl in H.
  - apply ret_Ok in H as [Heq <-]. injection Heq as <- <- <-.
    exists []. by rewrite !app_nil_r.
  - apply bind_Ok in H as ([[mc1 si1] ad1] & s1 & H1 & H).
    apply NoDup_cons in Hnd as [Hk Hnd].
    assert (o = ONone ∨ o ≠ ONone) as [->|Hne] by (destruct o; eauto).
    + simpl in H1. apply ret_Ok in H1 as [Heq <-]. injection Heq as <- <- <-.
      apply IH in H as (evs & ? & ? & ? & ? & ? & ?); [|done|].
      * exists evs. done.
      * intros k' Hk'. apply Hfresh. by right.
    + assert (visit_agent agent cx k o (mc, si, ad) s = Ok ((mc1, si1, ad1), s1))
        as Hv by (by destruct o).
      apply visit_agent_Ok in Hv as (fn & p & a & Hfn & Hp & Hmc1 & _ & Htr1 & Had1).
      rewrite alist_set_fresh in Had1 by (apply Hfresh; by left).
      apply IH in H as (evs & Htr & Hm & Ho & Hpol & Had & Hsub); [|done|].
      2: { intros k' Hk'. rewrite Had1, fmap_app. simpl.
           intros [Hin|Hin%list_elem_of_singleton]%elem_of_app.
           - eapply Hfresh; [by right|done].
           - simpl in Hin. by subst. }
      assert (mc ⊆ mc1) as Hsub1.
      { rewrite Hmc1. destruct (mc !! k) eqn:E; [done|]. by apply insert_subseteq. }
      assert (mc1 !! k = Some p) as Hk1.
      { rewrite Hmc1, Hp. destruct (mc !! k) eqn:E; simpl; [done|].
        apply lookup_insert_eq. }
      assert (active_agents ((k, o) :: items) = (k, o) :: active_agents items) as ->
        by (unfold active_agents; simpl; by destruct o).
      exists ([ EvPolicyMapping k (fn k (world s)).1; EvComputeAction o (Some p) a ] ++ evs).
      rewrite mapped_ids_app, computes_of_app. simpl. split_and!.
      * by rewrite Htr, Htr1, <-app_assoc.
      * by f_equal.
      * by f_equal.
      * f_equal; [|done]. symmetry. by eapply lookup_weaken.
      * rewrite Had, Had1, <-app_assoc. by f_equal.
      * by etrans.
Qed.

(** X7: in a multi-agent iteration the agents whose state is [None] are
    skipped: the policy-mapping function and [compute_action] are called
    once for each other agent, in the order of the state dict, with that
    agent's observation, and the action dict has exactly those agents, each
    with the answer of its call. *)
Theorem none_observations_skipped agent cx l s items action mc' si' s1 :
  multiagent cx = true →
  l_state l = ODict items →
  NoDup items.*1 →
  choose_action agent cx l s = Ok ((action, mc', si'), s1) →
  ∃ evs,
    trace s1 = trace s ++ evs ∧
    mapped_ids evs = (active_agents items).*1 ∧
    (computes_of evs).*1.*1 = (active_agents items).*2 ∧
    action = ADict (zip (active_agents items).*1 (computes_of evs).*2).
Proof.
  unfold choose_action. intros -> -> Hnd H.
  apply bind_Ok in H as ([[mc si] ad] & s2 & Hfor & Hret).
  apply ret_Ok in Hret as [Heq <-]. injection Heq as <- <- <-.
  apply for_agents_Ok in Hfor as (evs & Htr & Hm & Ho & _ & Had & _); [|done|].
  - exists evs. by rewrite Had.
  - intros k _. by apply not_elem_of_nil.
Qed.

(** X8: an iteration only adds to the mapping cache: an agent keeps the
    policy id it was first given, whatever the policy-mapping function
    answers later. In a multi-agent iteration every [compute_action] is made
    with the policy id the cache then holds for the agent; a single-agent
    iteration leaves the cache as it is. *)
Theorem mapping_cache_only_grows agent cx out no_render l s l' s' :
  loop_body agent cx out no_render l s = Ok (l', s') →
  ∃ evs,
    trace s' = trace s ++ evs ∧
    l_mapping_cache l ⊆ l_mapping_cache l' ∧
    (multiagent cx = false → l_mapping_cache l' = l_mapping_cache l) ∧
    (multiagent cx = true → ∀ items,
       l_state l = ODict items → NoDup items.*1 →
       (computes_of evs).*1.*2
         = (λ k, l_mapping_cache l' !! k) <$> (active_agents items).*1).
Proof.
  intros H. apply loop_body_trace in H
    as (action & s1 & evs0 & ns & rew & dn & stat & w2 & flag & rfe & tm & sts
        & Hch & Htr1 & Hchoice & _ & _ & _ & Htr).
  eexists. split; [exact Htr|].
  unfold choose_action in Hch. destruct (multiagent cx).
  - destruct (l_state l) as [| |items] eqn:Hst; try done.
    apply bind_Ok in Hch as ([[mc si] ad] & s2 & Hfor & Hret).
    apply ret_Ok in Hret as [Heq <-]. injection Heq as _ <- _.
    split_and!; [|done|].
    + by eapply for_agents_grows.
    + intros _ items' [= <-] Hnd.
      apply for_agents_Ok in Hfor as (evs & Htr2 & _ & _ & Hpol & _ & _); [|done|].
      2: { intros k _. by apply not_elem_of_nil. }
      rewrite Htr1 in Htr2. apply app_inv_head in Htr2 as <-.
      rewrite computes_of_app. simpl.
      assert (computes_of (if no_render then [] else [EvRender]) = []) as ->
        by (by destruct no_render).
      by rewrite app_nil_r.
  - assert (l_mapping_cache l' = l_mapping_cache l) as ->; [|done].
    apply bind_Ok in Hch as (d & s2 & _ & Hch). destruct d.
    + apply bind_Ok in Hch as (st & s3 & _ & Hch).
      apply bind_Ok in Hch as ([a si] & s4 & _ & Hret).
      apply ret_Ok in Hret as [Heq _]. by injection Heq as _ <- _.
    + apply bind_Ok in Hch as (a & s3 & _ & Hret).
      apply ret_Ok in Hret as [Heq _]. by injection Heq as _ <- _.
Qed.


(** *** What an iteration needs of the environment's answer *)

(** X9: when the action is chosen and the environment has answered, the
    iteration fails exactly on an ill-shaped answer. Multi-agent: a [done]
    that is no dict gives a [TypeError], a [done] dict without ["__all__"] a
    [KeyError], and only then a reward that is no dict an [AttributeError].
    Single-agent: a dict reward gives a [TypeError]. *)
Theorem ill_shaped_step_raises agent cx out no_render l s action mc si s1
    next_state reward done stat w e :
  choose_action agent cx l s = Ok ((action, mc, si), s1) →
  env_step (env cx) (sent_action agent cx action) (world s1)
    = ((next_state, reward, done, stat), w) →
  (is_Some out → is_Some (l_rollout l)) →
  loop_body agent cx out no_render l s = Raise e ↔
  if multiagent cx then
    match done with
    | DBool _ => e = TypeError
    | DDict m =>
        match m !! "__all__" with
        | None => e = KeyError "__all__"
        | Some _ =>
            match reward with
            | RNum _ => e = AttributeError
            | RDict _ => False
            end
        end
    end
  else
    match reward with
    | RDict _ => e = TypeError
    | RNum _ => False
    end.
Proof.
  intros Hch Hstep Hro. unfold loop_body.
  unfold mbind at 1. unfold M_bind, bind. rewrite Hch.
  unfold sent_action in Hstep.
  assert ((if config_clip_actions agent
           then call (env_step (env cx) (clip_action action (env_action_space (env cx))))
                     (EvStep (clip_action action (env_action_space (env cx))))
           else call (env_step (env cx) action) (EvStep action)) s1
          = Ok ((next_state, reward, done, stat),
                {| world := w;
                   trace := trace s1 ++ [EvStep (sent_action agent cx action)
                                                (next_state, reward, done, stat)] |}))
    as Hcall.
  { unfold sent_action, call. destruct (config_clip_actions agent); by rewrite Hstep. }
  unfold mbind at 1. unfold M_bind, bind. cbv zeta. rewrite Hcall.
  unfold mbind at 1. unfold M_bind, bind, lift.
  unfold account, subscript.
  destruct (multiagent cx).
  - destruct done as [b|m]; simpl; [naive_solver|].
    destruct (m !! "__all__") as [b|]; simpl; [|naive_solver].
    destruct reward as [r|items]; simpl; [naive_solver|].
    split; [|done]. intros H.
    destruct no_render; simpl in H.
    + destruct out as [f|]; [|done].
      destruct Hro as [ts Hts]; [done|]. by rewrite Hts in H.
    + unfold mbind, M_bind, bind, call_, call, lift in H. simpl in H.
      destruct out as [f|]; [|done].
      destruct Hro as [ts Hts]; [done|]. by rewrite Hts in H.
  - destruct reward as [r|items]; simpl; [|naive_solver].
    split; [|done]. intros H.
    destruct no_render; simpl in H.
    + destruct out as [f|]; [|done].
      destruct Hro as [ts Hts]; [done|]. by rewrite Hts in H.
    + unfold mbind, M_bind, bind, call_, call, lift in H. simpl in H.
      destruct out as [f|]; [|done].
      destruct Hro as [ts Hts]; [done|]. by rewrite Hts in H.
Qed.

(** *** The single-agent loop *)

Lemma choose_action_single agent cx l s action mc si s1 :
  multiagent cx = false →
  choose_action agent cx l s = Ok ((action, mc, si), s1) →
  trace s1 = trace s ++ [EvComputeAction (l_state l) None action].
Proof.
  unfold choose_action. intros -> H.
  apply bind_Ok in H as (d & s2 & Hd & H). apply lift_Ok in Hd as [_ <-]. destruct d.
  - apply bind_Ok in H as (st & s3 & Hst & H). apply lift_Ok in Hst as [_ <-].
    apply bind_Ok in H as ([a si1] & s4 & Hc & H). apply call_Ok in Hc as [Ha ->].
    apply ret_Ok in H as [Heq <-]. injection Heq as <- _ _. simpl in *. by rewrite <-Ha.
  - apply bind_Ok in H as (a & s3 & Hc & H). apply call_Ok in Hc as [Ha ->].
    apply ret_Ok in H as [Heq <-]. injection Heq as <- _ _. simpl in *. by rewrite <-Ha.
Qed.

(** X10: a single-agent rollout that returns never calls the policy-mapping
    function and calls [compute_action] once per step, without a policy id,
    on the state the step starts from (what [env.reset] gave, then the
    [next_state] of the step before); the step is made with the answer of
    that call, clipped when the agent's configuration says so. *)
Theorem single_agent_policy_loop fuel agent env_name num_steps out no_render s l s' :
  is_multiagent agent = false →
  rollout fuel agent env_name num_steps out no_render s = Finished (l, s') →
  ∃ cx si s0 st0 evs e,
    rollout_setup agent env_name s = Ok ((cx, si), s0) ∧
    trace s' = trace s ++ setup_events agent env_name
                       ++ EvReset st0 :: evs ++ end_events out l e ∧
    mapped_ids evs = [] ∧
    length (computes_of evs) = length (steps_of evs) ∧
    ∀ i r, steps_of evs !! i = Some r →
      ∃ st a,
        computes_of evs !! i = Some (st, None, a) ∧
        state_before st0 (steps_of evs) i = Some st ∧
        st_action r = sent_action agent cx a.
Proof.
  intros Hsingle H.
  apply (rollout_invariant
           (λ cx st0 _ evs,
              mapped_ids evs = [] ∧
              length (computes_of evs) = length (steps_of evs) ∧
              ∀ i r, steps_of evs !! i = Some r →
                ∃ st a,
                  computes_of evs !! i = Some (st, None, a) ∧
                  state_before st0 (steps_of evs) i = Some st ∧
                  st_action r = sent_action agent cx a)) in H.
  - destruct H as (cx & si & s0 & st0 & evs & e & Hsetup & _ & Htr & _ & _ & _ & HP).
    by exists cx, si, s0, st0, evs, e.
  - intros. split_and!; [done..|]. intros i r Hi. simpl in Hi. by rewrite lookup_nil in Hi.
  - intros cx si s0 st0 la sa lb sb evs evs' Hsetup Hinv (Hm & Hlen & Hall) _ Hb Htr.
    apply rollout_setup_Ok in Hsetup as [Hmulti _]. rewrite Hsingle in Hmulti.
    apply loop_body_trace in Hb
      as (action & s1 & evs0 & ns & rew & dn & stat & w2 & flag & rfe & tm & sts
          & Hch & Htr1 & _ & _ & _ & _ & Htr').
    apply (choose_action_single _ _ _ _ _ _ _ _ Hmulti) in Hch.
    rewrite Htr1 in Hch. apply app_inv_head in Hch as ->.
    rewrite Htr in Htr'. apply app_inv_head in Htr' as ->.
    rewrite !mapped_ids_app, !computes_of_app, !steps_of_app, Hm. simpl.
    assert (mapped_ids (if no_render then [] else [EvRender]) = []) as ->
      by (by destruct no_render).
    assert (computes_of (if no_render then [] else [EvRender]) = []) as ->
      by (by destruct no_render).
    assert (steps_of (if no_render then [] else [EvRender]) = []) as ->
      by (by destruct no_render).
    split_and!; [done|by rewrite !length_app, Hlen|].
    intros i r Hi.
    destruct (decide (i < length (steps_of evs))) as [Hlt|Hge].
    + rewrite lookup_app_l in Hi by done.
      destruct (Hall i r Hi) as (st & a & Hc & Hst & Ha).
      exists st, a. split_and!; [|by rewrite state_before_snoc by lia|done].
      rewrite lookup_app_l by lia. done.
    + apply lookup_lt_Some in Hi as Hi'. rewrite length_app in Hi'. simpl in Hi'.
      assert (i = length (steps_of evs)) as -> by lia.
      rewrite list_lookup_middle in Hi by done. injection Hi as <-.
      exists (l_state la), action. split_and!; [|..|done].
      * rewrite <-Hlen. by rewrite list_lookup_middle.
      * rewrite state_before_snoc by lia. apply (inv_state _ _ _ _ _ _ _ Hinv).
Qed.


(** *** No step after the end of the episode *)

(** X11: in a rollout that returns, single-agent or multi-agent, only the
    last step can have reported the end of the episode: every [done] of
    [env.step] has a termination flag (itself, or its ["__all__"] in a
    multi-agent rollout), a step with a true flag is the last one, and the
    loop's [done] is the flag of the last step. *)
Theorem no_step_after_done fuel agent env_name num_steps out no_render s l s' :
  rollout fuel agent env_name num_steps out no_render s = Finished (l, s') →
  ∃ evs,
    trace s' = trace s ++ evs ∧
    (∀ i r, steps_of evs !! i = Some r →
       ∃ flag, done_flag (is_multiagent agent) (st_done r) = Some flag ∧
               (done_truthy flag = true → S i = length (steps_of evs))) ∧
    (∀ r, last (steps_of evs) = Some r →
       done_flag (is_multiagent agent) (st_done r) = Some (l_done l)).
Proof.
  intros H. apply rollout_observed in H
    as (cx & si & s0 & st0 & evs & _ & Hcx & Htr & _ & _ & _ & Hinv & _).
  exists evs. split; [done|].
  pose proof (inv_done _ _ _ _ _ _ _ Hinv) as Hdone. rewrite Hcx in Hdone.
  split.
  - intros i r Hr. pose proof (lookup_lt_Some _ _ _ Hr) as Hi.
    destruct (decide (S i < length (steps_of evs))) as [Hlt|Hge].
    + pose proof (inv_running _ _ _ _ _ _ _ Hinv (S i) Hlt) as (flag & Hf & Ht).
      rewrite Hcx in Hf. simpl in Hf. rewrite Hr in Hf. simpl in Hf.
      exists flag. split; [done|]. intros Hflag. by rewrite Hflag in Ht.
    + assert (S i = length (steps_of evs)) as Heq by lia.
      rewrite <-Heq in Hdone. simpl in Hdone. rewrite Hr in Hdone. simpl in Hdone.
      by exists (l_done l).
  - intros r Hr. rewrite last_lookup in Hr.
    destruct (length (steps_of evs)) as [|n] eqn:Hn.
    + apply length_zero_iff_nil in Hn. by rewrite Hn in Hr.
    + simpl in Hr, Hdone. by rewrite Hr in Hdone.
Qed.

End Behaviour.

(** ** The model on concrete inputs *)

Section Examples.
Import Demo.

(** C8: a multi-agent rollout of three steps calls the policy-mapping
    function three times for the agent ["tl0"], once in every step, although
    the cache holds its policy id from the first step on. *)
Theorem mapping_fn_called_every_step :
  ∃ l s',
    rollout 5 (demo_agent multi_env true false) VNone (Some 10%Z) None true (sys0 ∅)
      = Finished (l, s') ∧
    length (steps_of (trace s')) = 3 ∧
    l_mapping_cache l !! "tl0" = Some "default" ∧
    mapping_calls "tl0" (trace s') = ["default"; "default"; "default"].
Proof. eexists _, _. split; [vm_compute; reflexivity|]. by vm_compute. Qed.

(** C1 does not hold of every rollout: a single-agent rollout of two steps
    leaves [statistics] empty, and writes the empty list. *)
Lemma statistics_empty_for_single_agent :
  ∃ l s',
    rollout 5 (demo_agent single_env false false) VNone (Some 2%Z) None true (sys0 ∅)
      = Finished (l, s') ∧
    length (steps_of (trace s')) = 2 ∧
    l_statistics l = [] ∧
    json_dumps (trace s') = [(statistics_file, [])].
Proof. eexists _, _. split; [vm_compute; reflexivity|]. by vm_compute. Qed.

(** C2 does not hold with three sources: when both directories have a
    [params.pkl], the key ["gamma"] of the parent directory's file is not in
    the configuration the agent is constructed with. *)
Lemma parent_params_not_merged :
  ∃ agent env num_steps s' config,
    run_prepare (demo_args VNone (VInt 2) None ∅) (sys0 both_files)
      = Ok ((agent, env, num_steps), s') ∧
    agent_inits (trace s') = [("PPO", env, config)] ∧
    (both_files !! "ckpt/run/../params.pkl" ≫= λ parent, parent !! "gamma")
      = Some (VInt 99) ∧
    config !! "gamma" = None ∧
    config !! "multi" = Some (VBool true).
Proof. eexists _, _, _, _, _. split; [vm_compute; reflexivity|]. by vm_compute. Qed.


(** The worker-count keys are removed from the file's configuration only: one
    given with [--config] is in the configuration of the agent. *)
Example cli_worker_key_is_kept :
  ∃ config s',
    run_config (demo_args VNone (VInt 2) None {[ "num_workers" := VInt 2 ]})
               (sys0 both_files) = Ok (config, s') ∧
    config !! "num_workers" = Some (VInt 2) ∧
    config !! "env" = Some (VStr "SUMOEnv-v0").
Proof. eexists _, _. split; [vm_compute; reflexivity|]. by vm_compute. Qed.

(** With clipping on, the policy's 7 is recorded and the clipped 3 is what
    the environment gets. *)
Example clipped_step_records_choice :
  ∃ l' s',
    loop_body (demo_agent multi_env true true) (demo_cx multi_env true)
      (Some "rollouts.pkl") true (demo_locals two_lights (Some [])) (sys0 ∅) = Ok (l', s') ∧
    (l_rollout l' ≫= head) ≫= (λ t, Some t.1.1.1.2)
      = Some (ADict [("tl0", AVal 7%Z); ("tl1", AVal 7%Z)]) ∧
    st_action <$> steps_of (trace s')
      = [ADict [("tl0", AVal 3%Z); ("tl1", AVal 3%Z)]].
Proof. eexists _, _. split; [vm_compute; reflexivity|]. by vm_compute. Qed.

(** With [num_steps] [None] and an episode that never ends, fifty iterations
    do not end the loop. *)
Example endless_episode_runs_on :
  rollout 50 (demo_agent endless_env false false) VNone None None true (sys0 ∅)
    = OutOfFuel.
Proof. by vm_compute. Qed.

(** The demo environments have the shapes [rollout_returns] asks for. *)
Example demo_rollout_returns :
  ∃ l s',
    rollout 4 (demo_agent multi_env true true) VNone (Some 4%Z) (Some "rollouts.pkl") false
      (sys0 ∅) = Finished (l, s').
Proof.
  eapply (rollout_returns 4 4 _ _ _ _ _ (demo_cx multi_env true)
            (Some (SIDict {[ "default" := [] ]})) (sys0 ∅)); [done|done|reflexivity|..].
  - split.
    + intros w. by eexists.
    + intros a w. eexists _, _, _, _, _, _. split; [reflexivity|].
      rewrite !lookup_insert_ne by done. apply lookup_singleton_eq.
  - eexists. split; [done|]. intros agent_id w. by eexists.
Qed.

(** [statistics_record] on a multi-agent rollout of three steps. *)
Lemma statistics_record_witness :
  let agent := demo_agent multi_env true false in
  let s := sys0 ∅ in
  ∃ l s',
    rollout 5 agent VNone (Some 10%Z) None true s = Finished (l, s') ∧
    ∃ before after,
      trace s' = trace s ++ before ++ EvJsonDump statistics_file (l_statistics l) :: after ∧
      json_dumps before = [] ∧ json_dumps after = [] ∧ steps_of after = [] ∧
      let rs := steps_of before in
      length (l_statistics l) = length rs ∧
      ∀ i e, l_statistics l !! i = Some e →
        ∃ r, rs !! i = Some r ∧
          se_statistics e = st_stat r ∧
          se_timestamp e = (5 * Z.of_nat i)%Z ∧
          ∀ k, se_episode_reward e !! k = cumulative_reward k (take (S i) rs).
Proof.
  intros agent s. eexists _, _.
  refine ((λ H, conj H (statistics_record 5 agent VNone (Some 10%Z) None true s _ _ H)) _).
  vm_compute. reflexivity.
Defined.

(** [agent_config_sources] where only the parent directory has a
    [params.pkl] and [--config] sets one key. *)
Lemma agent_config_sources_witness :
  let args := demo_args VNone (VInt 2) None {[ "clip_actions" := VBool true ]} in
  let s := sys0 parent_file in
  ∃ agent env num_steps s',
    run_prepare args s = Ok ((agent, env, num_steps), s') ∧
    ∃ file_config config,
      (if path_exists (world s) (own_params args)
       then pickle_load (world s) (own_params args) = Some file_config
       else if path_exists (world s) (parent_params args)
       then pickle_load (world s) (parent_params args) = Some file_config
       else file_config = ∅) ∧
      without_workers file_config !! "num_workers" = None ∧
      without_workers file_config !! "num_gpus_per_worker" = None ∧
      (∀ k, k ≠ "num_workers" → k ≠ "num_gpus_per_worker" →
            without_workers file_config !! k = file_config !! k) ∧
      merge_dicts (without_workers file_config) (args_config args) = Some config ∧
      agent_inits (drop (length (trace s)) (trace s')) = [(args_run args, env, config)].
Proof.
  intros args s. eexists _, _, _, _.
  refine ((λ H, conj H (agent_config_sources args s _ _ _ _ H)) _).
  vm_compute. reflexivity.
Defined.

(** [sentinel_ends_episode] on the first iteration of a multi-agent rollout. *)
Lemma sentinel_ends_episode_witness :
  let agent := demo_agent multi_env true false in
  let l := demo_locals two_lights None in
  let s := sys0 ∅ in
  is_multiagent agent = true ∧
  ∃ cx state_init s1 l' s',
    rollout_setup agent VNone s = Ok ((cx, state_init), s1) ∧
    loop_body agent cx None true l s = Ok (l', s') ∧
    ∃ r dm b,
      steps_of (drop (length (trace s)) (trace s')) = [r] ∧
      st_done r = DDict dm ∧ dm !! "__all__" = Some b ∧
      l_done l' = DBool b ∧
      (b = true → ∀ fuel,
         while_loop fuel agent cx (Some 10%Z) None true l' s' = Finished (l', s')).
Proof.
  intros agent l s. split; [reflexivity|].
  exists (demo_cx multi_env true), (Some (SIDict {[ "default" := [] ]})), s.
  eexists _, _.
  split; [reflexivity|].
  refine ((λ H2, conj H2
            (sentinel_ends_episode agent VNone s (demo_cx multi_env true)
               (Some (SIDict {[ "default" := [] ]})) s (Some 10%Z) None true l s _ _
               eq_refl eq_refl H2)) _).
  vm_compute. reflexivity.
Defined.

(** [clip_actions_conditional] on an iteration with clipping on. *)
Lemma clip_actions_conditional_witness :
  let agent := demo_agent multi_env true true in
  let cx := demo_cx multi_env true in
  let l := demo_locals two_lights None in
  let s := sys0 ∅ in
  ∃ l' s',
    loop_body agent cx None true l s = Ok (l', s') ∧
    ∃ action mapping_cache state_init s1 result w2 rest,
      choose_action agent cx l s = Ok ((action, mapping_cache, state_init), s1) ∧
      let passed :=
        if config_clip_actions agent
        then clip_action action (env_action_space (env cx))
        else action in
      env_step (env cx) passed (world s1) = (result, w2) ∧
      trace s' = trace s1 ++ EvStep passed result :: rest ∧
      steps_of rest = [].
Proof.
  intros agent cx l s. eexists _, _.
  refine ((λ H, conj H (clip_actions_conditional agent cx None true l s _ _ H)) _).
  vm_compute. reflexivity.
Defined.

(** [no_config_error] with no file at all and the default [--config]. *)
Lemma no_config_error_witness :
  let args := demo_args VNone (VInt 2) None ∅ in
  let s := sys0 ∅ in
  (path_exists (world s) (own_params args) = false ∧
   path_exists (world s) (parent_params args) = false ∧
   args_config args = ∅) ∧
  run 5 args s = Raised (ValueError no_params_msg).
Proof.
  intros args s.
  refine ((λ H, conj H (proj2 (no_config_error 5 args s) H)) _).
  split_and!; vm_compute; reflexivity.
Defined.

(** [env_required_error]: a configuration without ["env"] and no [--env]
    ends in the parser's error; a configuration with ["env"] supplies it. *)
Lemma env_required_error_witness :
  let args := demo_args VNone (VInt 2) None ∅ in
  (∃ config,
     run_config args (sys0 own_file_without_env) = Ok (config, sys0 own_file_without_env) ∧
     truthy (args_env args) = false ∧ truthy (dict_get config "env") = false) ∧
  run 5 args (sys0 own_file_without_env) = Raised (ParserError env_required_msg) ∧
  ∃ config,
    run_config args (sys0 parent_file) = Ok (config, sys0 parent_file) ∧
    truthy (args_env args) = false ∧ truthy (dict_get config "env") = true ∧
    run_env args config (sys0 parent_file) = Ok (dict_get config "env", sys0 parent_file).
Proof.
  intros args.
  refine ((λ H, conj H (conj (proj2 (proj1 (env_required_error 5 args _)) H) _)) _).
  - eexists.
    refine ((λ H1 H2 H3, conj H1 (conj H2 (conj H3
              (proj1 (proj2 (env_required_error 5 args _) _ H1 H2 H3))))) _ _ _).
    + vm_compute. reflexivity.
    + reflexivity.
    + vm_compute. reflexivity.
  - eexists. split_and!; vm_compute; reflexivity.
Defined.

(** [trajectory_record] on a rollout of two steps written to a file. *)
Lemma trajectory_record_witness :
  let agent := demo_agent multi_env true true in
  let s := sys0 ∅ in
  ∃ l s',
    rollout 5 agent VNone (Some 2%Z) (Some "rollouts.pkl") true s = Finished (l, s') ∧
    ∃ cx state_init s0 st0 evs,
      rollout_setup agent VNone s = Ok ((cx, state_init), s0) ∧
      trace s' = trace s ++ evs ∧ resets_of evs = [st0] ∧
      let rs := steps_of evs in
      ∃ ts, l_rollout l = Some ts ∧
        pickle_dumps evs = [("rollouts.pkl", ts)] ∧
        last evs = Some (EvPickleDump "rollouts.pkl" ts) ∧
        length ts = length rs ∧
        ∀ i t, ts !! i = Some t →
          ∃ r action st flag,
            rs !! i = Some r ∧
            st_action r = sent_action agent cx action ∧
            state_before st0 rs i = Some st ∧
            flag_after (is_multiagent agent) rs (S i) = Some flag ∧
            t = (st, action, st_next_state r, st_reward r, flag).
Proof.
  intros agent s. eexists _, _.
  refine ((λ H, conj H
            (trajectory_record 5 agent VNone (Some 2%Z) (Some "rollouts.pkl") true s _ _ H)) _).
  vm_compute. reflexivity.
Defined.

(** [recorded_action_unclipped] on an iteration where the policy answers 7
    and the action space is [0, 3]. *)
Lemma recorded_action_unclipped_witness :
  let agent := demo_agent multi_env true true in
  let cx := demo_cx multi_env true in
  let l := demo_locals two_lights (Some []) in
  let s := sys0 ∅ in
  config_clip_actions agent = true ∧
  ∃ l' s',
    loop_body agent cx (Some "rollouts.pkl") true l s = Ok (l', s') ∧
    ∃ action mapping_cache state_init s1 next_state reward done stat w2 ts flag,
      choose_action agent cx l s = Ok ((action, mapping_cache, state_init), s1) ∧
      env_step (env cx) (clip_action action (env_action_space (env cx))) (world s1)
        = ((next_state, reward, done, stat), w2) ∧
      steps_of (drop (length (trace s)) (trace s'))
        = [(clip_action action (env_action_space (env cx)),
            (next_state, reward, done, stat))] ∧
      l_rollout l = Some ts ∧
      l_rollout l' = Some (ts ++ [(l_state l, action, next_state, reward, flag)]).
Proof.
  intros agent cx l s. split; [reflexivity|]. eexists _, _.
  refine ((λ H, conj H
            (recorded_action_unclipped agent cx "rollouts.pkl" true l s _ _ eq_refl H)) _).
  vm_compute. reflexivity.
Defined.

(** [steps_bounded] with [num_steps] 2, and with [num_steps] 0 on an
    environment that ends its episode at the third step. *)
Lemma steps_bounded_witness :
  let agent := demo_agent single_env false false in
  let s := sys0 ∅ in
  (0 < 2)%Z ∧ Z.to_nat 2 ≤ 2 ∧
  rollout 2 agent VNone (Some 2%Z) None true s ≠ OutOfFuel ∧
  (∃ l s',
     rollout 2 agent VNone (Some 2%Z) None true s = Finished (l, s') ∧
     (0 ≤ l_steps l ≤ 2)%Z ∧
     (done_truthy (l_done l) = true ∨ l_steps l = 2%Z) ∧
     ∃ evs, trace s' = trace s ++ evs ∧ l_steps l = Z.of_nat (length (steps_of evs))) ∧
  (∃ l s',
     rollout 5 agent VNone (Some 0%Z) None true s = Finished (l, s') ∧
     done_truthy (l_done l) = true ∧
     ∃ evs, trace s' = trace s ++ evs ∧ l_steps l = Z.of_nat (length (steps_of evs))).
Proof.
  intros agent s.
  destruct (steps_bounded agent VNone None true s) as [Hpos Hzero].
  destruct (Hpos 2%Z eq_refl) as [Hfuel Hfin].
  destruct (Hzero (Some 0%Z) (or_intror eq_refl)) as [_ Hfin0].
  split; [reflexivity|]. split; [apply le_n|]. split; [apply Hfuel, le_n|]. split.
  - eexists _, _. refine ((λ H, conj H (Hfin 2 _ _ H)) _). vm_compute. reflexivity.
  - eexists _, _. refine ((λ H, conj H (Hfin0 5 _ _ H)) _). vm_compute. reflexivity.
Defined.

End Examples.

(** ** The behaviour on concrete inputs *)

Section BehaviourExamples.
Import Demo.

(** [render_follows_each_step] on a rendered single-agent rollout of two
    steps. *)
Lemma render_follows_each_step_witness :
  let agent := demo_agent single_env false false in
  let s := sys0 ∅ in
  ∃ l s',
    rollout 5 agent VNone (Some 2%Z) None false s = Finished (l, s') ∧
    ∃ evs, trace s' = trace s ++ evs ∧
      steps_and_renders evs = steps_of evs ≫= λ _, [false; true].
Proof.
  intros agent s. eexists _, _.
  refine ((λ H, conj H (render_follows_each_step 5 agent VNone (Some 2%Z) None false s _ _ H)) _).
  vm_compute. reflexivity.
Defined.

(** [episode_summary_printed] on a multi-agent rollout of three steps. *)
Lemma episode_summary_printed_witness :
  let agent := demo_agent multi_env true false in
  let s := sys0 ∅ in
  ∃ l s',
    rollout 5 agent VNone (Some 10%Z) None true s = Finished (l, s') ∧
    ∃ before after e,
      trace s' = trace s ++ before ++ after ∧
      prints_of before = [] ∧ steps_of after = [] ∧
      prints_of after = [ PrintEndStatistics e;
                          PrintEpisodeReward (l_reward_total l);
                          PrintRewardForEach (l_reward_for_each l) ] ∧
      episode_reward (is_multiagent agent) (steps_of before) = Some (l_reward_total l) ∧
      if is_multiagent agent
      then ∀ k, l_reward_for_each l !! k = cumulative_reward k (steps_of before)
      else l_reward_for_each l = ∅.
Proof.
  intros agent s. eexists _, _.
  refine ((λ H, conj H (episode_summary_printed 5 agent VNone (Some 10%Z) None true s _ _ H)) _).
  vm_compute. reflexivity.
Defined.

(** [environment_made_and_reset_once] for an agent without a local
    evaluator: the environment comes from [gym.make]. *)
Lemma environment_made_and_reset_once_witness :
  let agent := {| local_evaluator := None;
                  config_clip_actions := false;
                  config_policy_mapping_fn := None;
                  compute_action := λ _ _ w, (AVal 1%Z, w);
                  compute_action_rnn := λ _ _ _ w, ((AVal 1%Z, []), w) |} in
  let s := sys0 ∅ in
  ∃ l s',
    rollout 5 agent (VStr "SUMOEnv-v0") (Some 2%Z) None true s = Finished (l, s') ∧
    ∃ before st0 after,
      trace s' = trace s ++ before ++ EvReset st0 :: after ∧
      gym_makes before = [VStr "SUMOEnv-v0"] ∧
      steps_of before = [] ∧ resets_of before = [] ∧
      gym_makes after = [] ∧ resets_of after = [].
Proof.
  intros agent s. eexists _, _.
  refine ((λ H, conj H
            (environment_made_and_reset_once 5 agent (VStr "SUMOEnv-v0") (Some 2%Z)
               None true s _ _ H)) _).
  vm_compute. reflexivity.
Defined.



(** [run_effects] on a run of two steps written to a file, the configuration
    coming from the checkpoint directory's [params.pkl]. *)
Lemma run_effects_witness :
  let args := demo_args VNone (VInt 2) (Some "rollouts.pkl") ∅ in
  let s := sys0 both_files in
  ∃ l s',
    run 5 args s = Finished (l, s') ∧
    ∃ config env num_steps evs,
      run_config args s = Ok (config, s) ∧
      env = (if truthy (args_env args) then args_env args else dict_get config "env") ∧
      truthy env = true ∧
      py_int (args_steps args) = Ok num_steps ∧
      (num_steps ≠ 0%Z → (l_steps l ≤ Z.max 0 num_steps)%Z) ∧
      trace s' = trace s ++ [ EvRayInit; EvAgentInit (args_run args) env config;
                              EvRestore (args_checkpoint args) ] ++ evs ∧
      agent_inits evs = [] ∧
      json_dumps evs = [(statistics_file, l_statistics l)] ∧
      ∃ ts, l_rollout l = Some ts ∧ pickle_dumps evs = [("rollouts.pkl", ts)].
Proof.
  intros args s. eexists _, _.
  refine ((λ H, conj H (run_effects 5 args s _ _ H)) _).
  vm_compute. reflexivity.
Defined.

(** [none_observations_skipped] on a state where the second of three traffic
    lights has no observation. *)
Lemma none_observations_skipped_witness :
  let agent := demo_agent multi_env true false in
  let cx := demo_cx multi_env true in
  let items := [("tl0", OVal 0); ("tl1", ONone); ("tl2", OVal 5)] in
  let l := demo_locals (ODict items) None in
  let s := sys0 ∅ in
  multiagent cx = true ∧ l_state l = ODict items ∧ NoDup items.*1 ∧
  ∃ action mc' si' s1,
    choose_action agent cx l s = Ok ((action, mc', si'), s1) ∧
    ∃ evs,
      trace s1 = trace s ++ evs ∧
      mapped_ids evs = ["tl0"; "tl2"] ∧
      (computes_of evs).*1.*1 = [OVal 0; OVal 5] ∧
      action = ADict (zip ["tl0"; "tl2"] (computes_of evs).*2).
Proof.
  intros agent cx items l s.
  assert (NoDup items.*1) as Hnd by (apply (bool_decide_unpack (NoDup items.*1)); vm_compute; exact I).
  split; [reflexivity|]. split; [reflexivity|]. split; [exact Hnd|].
  eexists _, _, _, _.
  refine ((λ H, conj H
            (none_observations_skipped agent cx l s items _ _ _ _ eq_refl eq_refl Hnd H)) _).
  vm_compute. reflexivity.
Defined.

(** [mapping_cache_only_grows] on the first iteration of a multi-agent
    rollout. *)
Lemma mapping_cache_only_grows_witness :
  let agent := demo_agent multi_env true false in
  let cx := demo_cx multi_env true in
  let l := demo_locals two_lights None in
  let s := sys0 ∅ in
  ∃ l' s',
    loop_body agent cx None true l s = Ok (l', s') ∧
    ∃ evs,
      trace s' = trace s ++ evs ∧
      l_mapping_cache l ⊆ l_mapping_cache l' ∧
      (multiagent cx = false → l_mapping_cache l' = l_mapping_cache l) ∧
      (multiagent cx = true → ∀ items,
         l_state l = ODict items → NoDup items.*1 →
         (computes_of evs).*1.*2
           = (λ k, l_mapping_cache l' !! k) <$> (active_agents items).*1).
Proof.
  intros agent cx l s. eexists _, _.
  refine ((λ H, conj H (mapping_cache_only_grows agent cx None true l s _ _ H)) _).
  vm_compute. reflexivity.
Defined.

(** [ill_shaped_step_raises]: a single-agent environment under a multi-agent
    evaluator answers with a [bool] for [done]. *)
Lemma ill_shaped_step_raises_witness :
  let agent := demo_agent single_env true false in
  let cx := demo_cx single_env true in
  let l := demo_locals two_lights None in
  let s := sys0 ∅ in
  ∃ action mc si s1 next_state reward done stat w,
    choose_action agent cx l s = Ok ((action, mc, si), s1) ∧
    env_step (env cx) (sent_action agent cx action) (world s1)
      = ((next_state, reward, done, stat), w) ∧
    (is_Some (@None string) → is_Some (l_rollout l)) ∧
    loop_body agent cx None true l s = Raise TypeError.
Proof.
  intros agent cx l s.
  let r := eval vm_compute in (choose_action agent cx l s) in
  match r with
  | Ok (?action, ?mc, ?si, ?s1) =>
      exists action, mc, si, s1;
      let r' := eval vm_compute in (env_step (env cx) (sent_action agent cx action) (world s1)) in
      match r' with
      | (?next_state, ?reward, ?done, ?stat, ?w) =>
          exists next_state, reward, done, stat, w;
          refine ((λ H1 H2 H3, conj H1 (conj H2 (conj H3
                    (proj2 (ill_shaped_step_raises agent cx None true l s action mc si s1
                              next_state reward done stat w TypeError H1 H2 H3)
                           eq_refl)))) _ _ _)
      end
  end.
  - vm_compute. reflexivity.
  - vm_compute. reflexivity.
  - intros [? [=]].
Defined.

(** [single_agent_policy_loop] on a clipped single-agent rollout of two
    steps. *)
Lemma single_agent_policy_loop_witness :
  let agent := demo_agent single_env false true in
  let s := sys0 ∅ in
  is_multiagent agent = false ∧
  ∃ l s',
    rollout 5 agent VNone (Some 2%Z) None true s = Finished (l, s') ∧
    ∃ cx si s0 st0 evs e,
      rollout_setup agent VNone s = Ok ((cx, si), s0) ∧
      trace s' = trace s ++ setup_events agent VNone
                         ++ EvReset st0 :: evs ++ end_events None l e ∧
      mapped_ids evs = [] ∧
      length (computes_of evs) = length (steps_of evs) ∧
      ∀ i r, steps_of evs !! i = Some r →
        ∃ st a,
          computes_of evs !! i = Some (st, None, a) ∧
          state_before st0 (steps_of evs) i = Some st ∧
          st_action r = sent_action agent cx a.
Proof.
  intros agent s. split; [reflexivity|]. eexists _, _.
  refine ((λ H, conj H
            (single_agent_policy_loop 5 agent VNone (Some 2%Z) None true s _ _ eq_refl H)) _).
  vm_compute. reflexivity.
Defined.

(** [no_step_after_done] on a single-agent rollout that the environment ends
    at its third step. *)
Lemma no_step_after_done_witness :
  let agent := demo_agent single_env false false in
  let s := sys0 ∅ in
  ∃ l s',
    rollout 5 agent VNone (Some 10%Z) None true s = Finished (l, s') ∧
    ∃ evs,
      trace s' = trace s ++ evs ∧
      (∀ i r, steps_of evs !! i = Some r →
         ∃ flag, done_flag (is_multiagent agent) (st_done r) = Some flag ∧
                 (done_truthy flag = true → S i = length (steps_of evs))) ∧
      (∀ r, last (steps_of evs) = Some r →
         done_flag (is_multiagent agent) (st_done r) = Some (l_done l)).
Proof.
  intros agent s. eexists _, _.
  refine ((λ H, conj H (no_step_after_done 5 agent VNone (Some 10%Z) None true s _ _ H)) _).
  vm_compute. reflexivity.
Defined.

End BehaviourExamples.
